(** * music4dementia-reactive: the reactive session and recommendation core

    A shallow embedding of
      - [ReactiveSessionManager]   (session store, reaction recording, metrics),
      - [MusicRecommendationEngine] (preference model, similarity, combiner),
      - [trackSchema.methods.calculateSimilarity] and [updateAnalytics]
        (track-to-track similarity, play and rating counters),
      - the routes and the WebSocket handler that record reactions, join and
        leave,
    followed by the properties of the design document that concern them and
    by further properties that the code shows.

    Conventions of the embedding.
      - A JavaScript [Map] whose iteration order is observed (participants,
        the catalog, the combiner's accumulator) is an association list in
        insertion order; [Map.set] on a present key overwrites in place and
        keeps the position, [Map.delete] removes the key.  The session table
        and the user index, which are only looked up, are [gmap]s.
      - Session objects are shared by reference in the source; the embedding
        writes a mutated session back under its id, the only place where the
        source stores it.
      - [Date.now()] is the argument [now] of each operation; the readings of
        the clock made by one call are taken to be the same instant.
      - Timestamps, years, intensities and counters are integers.  Scores that
        are built with [+ - * / abs] are exact rationals ([Q]); engagement
        ([Math.exp]) and track-to-track similarity ([Math.sqrt]) are real
        numbers.  Rounding of IEEE doubles and [NaN] are not modelled. *)

From Stdlib Require Import ZArith QArith Qabs Reals Psatz Lia List.
From stdpp Require Import base decidable option list strings gmap sorting.
From stdpp Require Import pretty.

Set Default Proof Using "Type".

(** JavaScript truthiness of a string: only the empty string is falsy. *)
Definition truthy (s : string) : bool :=
  if decide (s = "") then false else true.

(* ===================================================================== *)
(** * The session manager ([ReactiveSessionManager]) *)
(* ===================================================================== *)

Module Manager.

(** The payload of a reaction: [{trackId, reaction, intensity, profileId,
    timestamp}].  [intensity] is [None] when the property is absent. *)
Record ReactionData := mkReaction {
  trackId : string;
  reaction : string;
  intensity : option Z;
  profileId : string;
  timestamp : Z
}.

Record Participant := mkParticipant {
  p_userId : string;
  p_profileId : string;
  p_connectionId : string;
  p_joinedAt : Z;
  p_reactions : list ReactionData;
  p_currentEngagement : R;
  p_totalListeningTime : Z
}.

Record Metrics := mkMetrics {
  totalDuration : Z;
  tracksPlayed : Z;
  positiveReactions : Z;
  negativeReactions : Z;
  averageEngagement : R
}.

Record Settings := mkSettings {
  autoNext : bool;
  reactionThreshold : Z;
  maxParticipants : Z
}.

(** [options.settings]: each key may be absent. *)
Record SettingsPatch := mkPatch {
  o_autoNext : option bool;
  o_reactionThreshold : option Z;
  o_maxParticipants : option Z
}.

Record CurrentTrack := mkCurrentTrack {
  ct_trackId : string;
  ct_title : string;
  ct_startedAt : Z
}.

Record Session := mkSession {
  id : string;
  createdAt : Z;
  participants : list (string * Participant);
  currentTrack : option CurrentTrack;
  playlist : list string;
  reactions : list ReactionData;
  metrics : Metrics;
  settings : Settings
}.

(** The object built by [calculateSessionMetrics]. *)
Record SessionMetrics := mkSessionMetrics {
  sm_sessionId : string;
  sm_duration : Z;
  sm_participantCount : nat;
  sm_tracksPlayed : Z;
  sm_totalReactions : nat;
  sm_positiveReactions : nat;
  sm_negativeReactions : nat;
  sm_positivityRatio : R;
  sm_averageEngagement : R;
  sm_currentTrack : option CurrentTrack;
  sm_isActive : bool;
  sm_lastActivity : Z
}.

(** What is pushed on [sessionEvents$]. *)
Inductive SessionEvent :=
| SESSION_CREATED (sessionId : string) (ts : Z)
| USER_JOINED (sessionId userId profile : string) (ts : Z)
| USER_LEFT (sessionId userId : string) (ts : Z)
| TRACK_CHANGED (sessionId trackId title : string) (ts : Z)
| SESSION_ENDED (sessionId : string) (ts : Z) (finalMetrics : SessionMetrics).

(** The manager: [activeSessions], [userSessions], the events pushed so far on
    [sessionEvents$] and on [userReactions$] (oldest first), and the number of
    values pushed on [sessions$].  The map held by [sessions$] always has the
    entries of [activeSessions] (every operation writes both), so it is not
    kept twice. *)
Record State := mkState {
  activeSessions : gmap string Session;
  userSessions : gmap string string;
  sessionEvents : list SessionEvent;
  userReactions : list (string * ReactionData);
  sessionsEmitted : nat
}.

Definition initial : State := mkState ∅ ∅ [] [] 0.

(** ** Participants: a [Map] keyed by user id, in insertion order *)

Fixpoint pset (uid : string) (p : Participant)
    (ps : list (string * Participant)) : list (string * Participant) :=
  match ps with
  | [] => [(uid, p)]
  | (k, q) :: rest =>
      if decide (k = uid) then (k, p) :: rest else (k, q) :: pset uid p rest
  end.

(** [participants.get(uid)]. *)
Fixpoint pget (uid : string)
    (ps : list (string * Participant)) : option Participant :=
  match ps with
  | [] => None
  | (k, q) :: rest => if decide (k = uid) then Some q else pget uid rest
  end.

Definition pdelete (uid : string)
    (ps : list (string * Participant)) : list (string * Participant) :=
  filter (λ kp, kp.1 ≠ uid) ps.

(** The loop of [leaveSession]: the key of the first participant whose
    connection id is [cid]. *)
Fixpoint findByConnection (cid : string)
    (ps : list (string * Participant)) : option string :=
  match ps with
  | [] => None
  | (k, q) :: rest =>
      if decide (p_connectionId q = cid) then Some k
      else findByConnection cid rest
  end.

(** Number of participants that use connection [cid]. *)
Definition onConnection (cid : string)
    (ps : list (string * Participant)) : nat :=
  length (filter (λ kp, p_connectionId kp.2 = cid) ps).

(** ** Engagement and metrics *)

(** [reaction.intensity || 3]: an absent intensity and the falsy [0] give 3. *)
Definition intensityScore (r : ReactionData) : Z :=
  match intensity r with
  | Some k => if decide (k = 0)%Z then 3%Z else k
  | None => 3%Z
  end.

(** A reaction of the data model: its intensity, when present, is an
    integer from 1 to 5. *)
Definition validIntensity (r : ReactionData) : Prop :=
  match intensity r with
  | Some k => (1 ≤ k ≤ 5)%Z
  | None => True
  end.

(** [Math.exp(-(now - reaction.timestamp) / (5 * 60 * 1000))]. *)
Definition ageWeight (now : Z) (r : ReactionData) : R :=
  exp (- IZR (now - timestamp r) / (5 * 60 * 1000)).

Definition weightedScore (now : Z) (r : ReactionData) : R :=
  (IZR (intensityScore r) * ageWeight now r)%R.

(** [xs.reduce((sum, x) => sum + x, 0)]. *)
Definition Rsum (xs : list R) : R := fold_left Rplus xs 0%R.

Definition calculateEngagement (now : Z) (rs : list ReactionData) : R :=
  match rs with
  | [] => 0%R
  | _ => (Rsum (map (weightedScore now) rs) / INR (length rs))%R
  end.

(** [Array.from(session.participants.values())] mapped with
    [p => p.currentEngagement || 0]; on a real number [x || 0] is [x]. *)
Definition participantEngagements (ps : list (string * Participant)) : list R :=
  map (λ kp, p_currentEngagement kp.2) ps.

Definition meanEngagement (ps : list (string * Participant)) : R :=
  match participantEngagements ps with
  | [] => 0%R
  | es => (Rsum es / INR (length es))%R
  end.

(** [undefined >= 4] and [undefined <= 2] are false. *)
Definition intensityGe4 (i : option Z) : bool :=
  match i with Some k => bool_decide (4 ≤ k)%Z | None => false end.

Definition intensityLe2 (i : option Z) : bool :=
  match i with Some k => bool_decide (k ≤ 2)%Z | None => false end.

Definition isPositive (r : ReactionData) : bool :=
  bool_decide (reaction r = "like")
  || bool_decide (reaction r = "strongly like")
  || intensityGe4 (intensity r).

Definition isNegative (r : ReactionData) : bool :=
  bool_decide (reaction r = "dislike")
  || bool_decide (reaction r = "strongly dislike")
  || intensityLe2 (intensity r).

Definition updateSessionMetrics (s : Session) (r : ReactionData) : Session :=
  let m := metrics s in
  let pos := if isPositive r then (positiveReactions m + 1)%Z
             else positiveReactions m in
  let neg := if isPositive r then negativeReactions m
             else if isNegative r then (negativeReactions m + 1)%Z
             else negativeReactions m in
  mkSession (id s) (createdAt s) (participants s) (currentTrack s)
    (playlist s) (reactions s)
    (mkMetrics (totalDuration m) (tracksPlayed m) pos neg
       (meanEngagement (participants s)))
    (settings s).

Definition calculateSessionMetrics (now : Z) (s : Session) : SessionMetrics :=
  let rs := reactions s in
  let pos := length (filter (λ r, isPositive r = true) rs) in
  let neg := length (filter (λ r, isNegative r = true) rs) in
  mkSessionMetrics (id s) (now - createdAt s) (length (participants s))
    (tracksPlayed (metrics s)) (length rs) pos neg
    (match rs with [] => 0%R | _ => (INR pos / INR (length rs))%R end)
    (meanEngagement (participants s))
    (currentTrack s) true
    (match rs with
     | [] => createdAt s
     | r :: rest => fold_left Z.max (map timestamp rest) (timestamp r)
     end).

(** ** Operations *)

Definition emitSessions (st : State) (sessions : gmap string Session)
    (users : gmap string string) (evs : list SessionEvent) : State :=
  mkState sessions users (sessionEvents st ++ evs) (userReactions st)
    (S (sessionsEmitted st)).

Definition applyPatch (p : SettingsPatch) : Settings :=
  mkSettings (default true (o_autoNext p))
    (default 3%Z (o_reactionThreshold p))
    (default 10%Z (o_maxParticipants p)).

(** [createSession(options)].  [optId] is [options.sessionId], [uuid] the
    value [uuidv4()] returns when it is called. *)
Definition createSession (now : Z) (optId : option string) (uuid : string)
    (patch : SettingsPatch) (st : State) : Session * State :=
  let sid := match optId with
             | Some s => if truthy s then s else uuid
             | None => uuid
             end in
  let session := mkSession sid now [] None [] []
                   (mkMetrics 0 0 0 0 0%R) (applyPatch patch) in
  (session,
   emitSessions st (<[sid := session]> (activeSessions st)) (userSessions st)
     [SESSION_CREATED sid now]).

Inductive Error := SessionNotFound (sessionId : string).

Record UserInfo := mkUserInfo {
  userId : string;
  ui_profileId : string;
  connectionId : string
}.

Definition withParticipants (s : Session)
    (ps : list (string * Participant)) : Session :=
  mkSession (id s) (createdAt s) ps (currentTrack s) (playlist s)
    (reactions s) (metrics s) (settings s).

(** [joinSession(sessionId, userInfo)]: the result is the thrown error or the
    returned session, together with the state the call leaves behind. *)
Definition joinSession (now : Z) (sid : string) (u : UserInfo) (st : State)
    : (Error + Session) * State :=
  match activeSessions st !! sid with
  | None => (inl (SessionNotFound sid), st)
  | Some session =>
      let p := mkParticipant (userId u) (ui_profileId u) (connectionId u)
                 now [] 0%R 0 in
      let session' :=
        withParticipants session (pset (userId u) p (participants session)) in
      (inr session',
       emitSessions st (<[sid := session']> (activeSessions st))
         (<[userId u := sid]> (userSessions st))
         [USER_JOINED sid (userId u) (ui_profileId u) now])
  end.

(** [endSession(sessionId)]. *)
Definition endSession (now : Z) (sid : string) (st : State) : State :=
  match activeSessions st !! sid with
  | None => st
  | Some session =>
      let users := foldr (λ kp us, delete (p_userId kp.2) us)
                     (userSessions st) (participants session) in
      emitSessions st (delete sid (activeSessions st)) users
        [SESSION_ENDED sid now (calculateSessionMetrics now session)]
  end.

(** [leaveSession(sessionId, connectionId)]. *)
Definition leaveSession (now : Z) (sid cid : string) (st : State) : State :=
  match activeSessions st !! sid with
  | None => st
  | Some session =>
      match findByConnection cid (participants session) with
      | None => st
      | Some uid =>
          if truthy uid then
            let session' :=
              withParticipants session (pdelete uid (participants session)) in
            let st1 :=
              emitSessions st (<[sid := session']> (activeSessions st))
                (delete uid (userSessions st)) [USER_LEFT sid uid now] in
            match participants session' with
            | [] => endSession now sid st1
            | _ => st1
            end
          else st
      end
  end.

(** The loop of [updateUserReaction] over the participants: the first one
    whose profile id matches gets the reaction and a recomputed engagement. *)
Fixpoint recordForParticipant (now : Z) (r : ReactionData)
    (ps : list (string * Participant)) : list (string * Participant) :=
  match ps with
  | [] => []
  | (k, q) :: rest =>
      if decide (p_profileId q = profileId r) then
        let rs := p_reactions q ++ [r] in
        (k, mkParticipant (p_userId q) (p_profileId q) (p_connectionId q)
              (p_joinedAt q) rs (calculateEngagement now rs)
              (p_totalListeningTime q)) :: rest
      else (k, q) :: recordForParticipant now r rest
  end.

(** [updateUserReaction(sessionId, reactionData)]. *)
Definition updateUserReaction (now : Z) (sid : string) (r : ReactionData)
    (st : State) : State :=
  match activeSessions st !! sid with
  | None => st
  | Some s =>
      let s1 := mkSession (id s) (createdAt s)
                  (recordForParticipant now r (participants s))
                  (currentTrack s) (playlist s) (reactions s ++ [r])
                  (metrics s) (settings s) in
      let s2 := updateSessionMetrics s1 r in
      mkState (<[sid := s2]> (activeSessions st)) (userSessions st)
        (sessionEvents st) (userReactions st ++ [(sid, r)])
        (S (sessionsEmitted st))
  end.

(** [updateCurrentTrack(sessionId, trackInfo)]. *)
Definition updateCurrentTrack (now : Z) (sid : string) (tid title : string)
    (st : State) : State :=
  match activeSessions st !! sid with
  | None => st
  | Some s =>
      let m := metrics s in
      let s' := mkSession (id s) (createdAt s) (participants s)
                  (Some (mkCurrentTrack tid title now)) (playlist s)
                  (reactions s)
                  (mkMetrics (totalDuration m) (tracksPlayed m + 1)
                     (positiveReactions m) (negativeReactions m)
                     (averageEngagement m))
                  (settings s) in
      emitSessions st (<[sid := s']> (activeSessions st)) (userSessions st)
        [TRACK_CHANGED sid tid title now]
  end.

Definition getSessionMetrics (now : Z) (sid : string) (st : State)
    : option SessionMetrics :=
  calculateSessionMetrics now <$> activeSessions st !! sid.

(** The property of the design document: no stored session is empty. *)
Definition noEmptySession (st : State) : Prop :=
  ∀ sid s, activeSessions st !! sid = Some s → participants s ≠ [].

(** The states the manager can be in: what a sequence of calls of its public
    methods produces from the state the constructor builds. *)
Inductive reachable : State → Prop :=
| reach_initial : reachable initial
| reach_create now optId uuid patch st :
    reachable st → reachable (createSession now optId uuid patch st).2
| reach_join now sid u st :
    reachable st → reachable (joinSession now sid u st).2
| reach_leave now sid cid st :
    reachable st → reachable (leaveSession now sid cid st)
| reach_end now sid st :
    reachable st → reachable (endSession now sid st)
| reach_reaction now sid r st :
    reachable st → reachable (updateUserReaction now sid r st)
| reach_track now sid tid title st :
    reachable st → reachable (updateCurrentTrack now sid tid title st).

(** ** Queries *)

(** [getSession(sessionId)]. *)
Definition getSession (sid : string) (st : State) : option Session :=
  activeSessions st !! sid.

(** [getUserSession(userId)]: [sessionId ? activeSessions.get(sessionId) :
    null]; [None] stands for both [null] and [undefined]. *)
Definition getUserSession (uid : string) (st : State) : option Session :=
  match userSessions st !! uid with
  | Some sid => if truthy sid then activeSessions st !! sid else None
  | None => None
  end.

(** [isProfileInSession(sessionId, profileId)]. *)
Definition isProfileInSession (sid profile : string) (st : State) : bool :=
  match activeSessions st !! sid with
  | None => false
  | Some s =>
      existsb (λ kp, bool_decide (p_profileId kp.2 = profile)) (participants s)
  end.

(** ** Calls of the public methods *)

Inductive Call :=
| CreateSession (now : Z) (optId : option string) (uuid : string)
    (patch : SettingsPatch)
| JoinSession (now : Z) (sid : string) (u : UserInfo)
| LeaveSession (now : Z) (sid cid : string)
| EndSession (now : Z) (sid : string)
| UpdateUserReaction (now : Z) (sid : string) (r : ReactionData)
| UpdateCurrentTrack (now : Z) (sid tid title : string).

Definition run (c : Call) (st : State) : State :=
  match c with
  | CreateSession now optId uuid patch =>
      (createSession now optId uuid patch st).2
  | JoinSession now sid u => (joinSession now sid u st).2
  | LeaveSession now sid cid => leaveSession now sid cid st
  | EndSession now sid => endSession now sid st
  | UpdateUserReaction now sid r => updateUserReaction now sid r st
  | UpdateCurrentTrack now sid tid title =>
      updateCurrentTrack now sid tid title st
  end.

(** The id under which a call stores a new session, if it is a
    [createSession]. *)
Definition creates (c : Call) : option string :=
  match c with
  | CreateSession _ (Some s) uuid _ => Some (if truthy s then s else uuid)
  | CreateSession _ None uuid _ => Some uuid
  | _ => None
  end.

(** ** Consistency of a stored session *)

(** A session stored under [sid] carries that id, its participants have
    distinct keys, and each is stored under its own user id. *)
Definition keyed (sid : string) (s : Session) : Prop :=
  id s = sid
  ∧ NoDup (map fst (participants s))
  ∧ Forall (λ kp, p_userId kp.2 = kp.1) (participants s).

(** The counters of [session.metrics] reflect the reaction list: a reaction
    that is positive counts as positive, one that is negative and not
    positive as negative. *)
Definition countersMatch (s : Session) : Prop :=
  positiveReactions (metrics s)
  = Z.of_nat (length (filter (λ r, isPositive r = true) (reactions s)))
  ∧ negativeReactions (metrics s)
    = Z.of_nat (length (filter (λ r, isPositive r = false
                                      ∧ isNegative r = true) (reactions s))).

(** ** The session a call stores back *)

(** What [createSession] stores. *)
Definition fresh (sid : string) (now : Z) (patch : SettingsPatch) : Session :=
  mkSession sid now [] None [] [] (mkMetrics 0 0 0 0 0%R) (applyPatch patch).

(** The session after the mutations of [joinSession], of the removal in
    [leaveSession], of [updateUserReaction] and of [updateCurrentTrack]. *)
Definition joined (now : Z) (u : UserInfo) (s : Session) : Session :=
  withParticipants s
    (pset (userId u)
       (mkParticipant (userId u) (ui_profileId u) (connectionId u) now [] 0%R 0)
       (participants s)).

Definition departed (uid : string) (s : Session) : Session :=
  withParticipants s (pdelete uid (participants s)).

Definition reacted (now : Z) (r : ReactionData) (s : Session) : Session :=
  updateSessionMetrics
    (mkSession (id s) (createdAt s)
       (recordForParticipant now r (participants s))
       (currentTrack s) (playlist s) (reactions s ++ [r])
       (metrics s) (settings s)) r.

Definition trackChanged (now : Z) (tid title : string) (s : Session)
    : Session :=
  mkSession (id s) (createdAt s) (participants s)
    (Some (mkCurrentTrack tid title now)) (playlist s) (reactions s)
    (mkMetrics (totalDuration (metrics s)) (tracksPlayed (metrics s) + 1)
       (positiveReactions (metrics s)) (negativeReactions (metrics s))
       (averageEngagement (metrics s)))
    (settings s).

(** How one call can change a session that stays in the store. *)
Inductive evolves (s : Session) : Session → Prop :=
| ev_same : evolves s s
| ev_joined now u : evolves s (joined now u s)
| ev_departed uid : evolves s (departed uid s)
| ev_reacted now r : evolves s (reacted now r s)
| ev_track now tid title : evolves s (trackChanged now tid title s).

End Manager.

(* ===================================================================== *)
(** * The recommendation engine ([MusicRecommendationEngine]) *)
(* ===================================================================== *)

Module Engine.

(** An entry of [trackFeatures$]. *)
Record Features := mkFeatures {
  genre : string;
  era : Z;
  energy : Q;
  valence : Q;
  tempo : Q
}.

(** [{trackId, score, reason}], what every strategy returns a list of. *)
Record Recommendation := mkRec {
  trackId : string;
  score : Q;
  reason : string
}.

(** [{trackId, score, reasons}], what [combineRecommendations] returns. *)
Record Combined := mkCombined {
  c_trackId : string;
  c_score : Q;
  c_reasons : list string
}.

(** The catalog loaded by [initializeEngine]. *)
Definition builtinCatalog : list (string * Features) :=
  [ ("track1", mkFeatures "classical" 1960 (3#10) (7#10) 80);
    ("track2", mkFeatures "folk" 1970 (5#10) (8#10) 100);
    ("track3", mkFeatures "jazz" 1950 (6#10) (6#10) 120);
    ("track4", mkFeatures "blues" 1960 (4#10) (5#10) 90);
    ("track5", mkFeatures "classical" 1940 (2#10) (9#10) 70) ]%Q.

(** [catalog.get(trackId)]. *)
Fixpoint catalogGet (tid : string) (catalog : list (string * Features))
    : option Features :=
  match catalog with
  | [] => None
  | (k, f) :: rest => if decide (k = tid) then Some f else catalogGet tid rest
  end.

Definition calculateContentSimilarity (f1 f2 : Features) : Q :=
  let genres : Q := if decide (genre f1 = genre f2) then 1%Q else 0%Q in
  let eras := (1 - inject_Z (Z.abs (era f1 - era f2)) / 50)%Q in
  let energy := (1 - Qabs (energy f1 - energy f2))%Q in
  let valence := (1 - Qabs (valence f1 - valence f2))%Q in
  let tempo := (1 - Qabs (tempo f1 - tempo f2) / 100)%Q in
  (genres * (3#10) + eras * (2#10) + energy * (2#10) + valence * (2#10)
   + tempo * (1#10))%Q.

(** Two feature records that [calculateContentSimilarity] cannot tell
    apart. *)
Definition sameFeatures (f g : Features) : Prop :=
  genre f = genre g ∧ era f = era g ∧ (energy f == energy g)%Q
  ∧ (valence f == valence g)%Q ∧ (tempo f == tempo g)%Q.

(** ** [xs.sort((a, b) => b.score - a.score)]

    [Array.prototype.sort] is stable, and a stable sort has one possible
    result; it is computed here by insertion.  An element is put in front of
    the elements that follow it in the input and do not score more. *)
Section Sort.
Context {A : Type} (key : A → Q).

Fixpoint insertDesc (x : A) (l : list A) : list A :=
  match l with
  | [] => [x]
  | y :: ys =>
      if Qle_bool (key y) (key x) then x :: y :: ys
      else y :: insertDesc x ys
  end.

Definition sortDesc (l : list A) : list A := foldr insertDesc [] l.

End Sort.

(** A list in descending order of [key]. *)
Definition descending {A : Type} (key : A → Q) (l : list A) : Prop :=
  StronglySorted (λ a b, (key b <= key a)%Q) l.

(** [xs.slice(from, to)] for [0 <= from <= to]. *)
Definition slice {A : Type} (from to : nat) (l : list A) : list A :=
  firstn (to - from) (skipn from l).

(** ** Similar and contrasting tracks *)

Definition similarities (target : Features)
    (catalog : list (string * Features)) : list Recommendation :=
  map (λ kf, mkRec kf.1 (calculateContentSimilarity target kf.2) "similar")
    catalog.

Definition getSimilarTracks (target : Features) (count : nat)
    (catalog : list (string * Features)) : list Recommendation :=
  slice 1 (count + 1) (sortDesc score (similarities target catalog)).

Definition getContrastingTracks (target : Features) (count : nat)
    (catalog : list (string * Features)) : list Recommendation :=
  slice 0 count
    (sortDesc score
       (map (λ kf, mkRec kf.1 (1 - calculateContentSimilarity target kf.2)%Q
                     "contrasting") catalog)).

(** ** The combiner *)

(** One turn of the inner loop of [combineRecommendations]: [combined] is a
    [Map] keyed by track id. *)
Fixpoint accumulate (rec : Recommendation) (weight : Q)
    (combined : list Combined) : list Combined :=
  match combined with
  | [] => [mkCombined (trackId rec) (score rec * weight)%Q [reason rec]]
  | c :: rest =>
      if decide (c_trackId c = trackId rec) then
        mkCombined (c_trackId c) (c_score c + score rec * weight)%Q
          (c_reasons c ++ [reason rec]) :: rest
      else c :: accumulate rec weight rest
  end.

Definition accumulateSource (combined : list Combined)
    (source : list Recommendation * Q) : list Combined :=
  fold_left (λ acc rec, accumulate rec source.2 acc) source.1 combined.

Definition combineRecommendations
    (sources : list (list Recommendation * Q)) : list Combined :=
  sortDesc c_score (fold_left accumulateSource sources []).

(** The tail of [getSessionRecommendations]: the three awaited strategy
    results are merged with their weights and the first ten are returned. *)
Definition getSessionRecommendations
    (collaborativeRecs contentRecs contextRecs : list Recommendation)
    : list Combined :=
  slice 0 10
    (combineRecommendations
       [ (collaborativeRecs, (4#10)%Q); (contentRecs, (4#10)%Q);
         (contextRecs, (2#10)%Q) ]).

(** [combined.get(tid)]. *)
Fixpoint cget (tid : string) (combined : list Combined) : option Combined :=
  match combined with
  | [] => None
  | c :: rest => if decide (c_trackId c = tid) then Some c else cget tid rest
  end.

(** The proposals of the three strategies in the order in which the combiner
    meets them, each with the weight of its strategy. *)
Definition proposals
    (collaborativeRecs contentRecs contextRecs : list Recommendation)
    : list (Recommendation * Q) :=
  map (λ r, (r, (4#10)%Q)) collaborativeRecs
  ++ map (λ r, (r, (4#10)%Q)) contentRecs
  ++ map (λ r, (r, (2#10)%Q)) contextRecs.

(** The sum of [strategyScore * strategyWeight] over the proposals of a
    track. *)
Definition weightedSum (tid : string) (props : list (Recommendation * Q)) : Q :=
  foldr (λ pw acc, if decide (trackId pw.1 = tid)
                   then (score pw.1 * pw.2 + acc)%Q else acc) 0%Q props.

(** The reasons of the proposals of a track, one for each proposal. *)
Definition reasonsOf (tid : string) (props : list (Recommendation * Q))
    : list string :=
  map (λ pw, reason pw.1) (filter (λ pw, trackId pw.1 = tid) props).

(** The inner loop of the combiner over a list of weighted proposals. *)
Definition accumulateAll (props : list (Recommendation * Q))
    (combined : list Combined) : list Combined :=
  fold_left (λ acc pw, accumulate pw.1 pw.2 acc) props combined.

(** What the accumulator holds for a track after a list of proposals. *)
Definition tallies (props : list (Recommendation * Q))
    (combined : list Combined) : Prop :=
  NoDup (map c_trackId combined)
  ∧ ∀ tid, match cget tid combined with
           | Some c => c_trackId c = tid
                       ∧ (c_score c == weightedSum tid props)%Q
                       ∧ c_reasons c = reasonsOf tid props
                       ∧ c_reasons c ≠ []
           | None => Forall (λ pw, trackId pw.1 ≠ tid) props
           end.

(** ** Adaptive recommendations *)

Definition positiveReaction (r : Manager.ReactionData) : bool :=
  bool_decide (Manager.reaction r = "like")
  || bool_decide (Manager.reaction r = "strongly like")
  || Manager.intensityGe4 (Manager.intensity r).

Definition negativeReaction (r : Manager.ReactionData) : bool :=
  bool_decide (Manager.reaction r = "dislike")
  || bool_decide (Manager.reaction r = "strongly dislike")
  || Manager.intensityLe2 (Manager.intensity r).

(** What [getAdaptiveRecommendations] resolves to.  The list returned by
    [getSessionRecommendations] (the fallback) has another element type than
    the lists of the three adaptive branches. *)
Inductive Adaptive :=
| Fallback (recs : list Combined)
| Tracks (recs : list Recommendation).

(** [getAdaptiveRecommendations(sessionId, profileId, lastReaction)].
    [fallback] is what [getSessionRecommendations(sessionId, profileId)]
    returns and [diverse] what [getDiverseRecommendations] returns (it draws
    from [Math.random]); neither is looked into. *)
Definition getAdaptiveRecommendations (catalog : list (string * Features))
    (fallback : list Combined) (diverse : list Recommendation)
    (lastReaction : Manager.ReactionData) : Adaptive :=
  match catalogGet (Manager.trackId lastReaction) catalog with
  | None => Fallback fallback
  | Some trackFeatures =>
      if positiveReaction lastReaction then
        Tracks (getSimilarTracks trackFeatures 5 catalog)
      else if negativeReaction lastReaction then
        Tracks (getContrastingTracks trackFeatures 5 catalog)
      else Tracks diverse
  end.

(** ** The preference model *)

Definition baseScores (label : string) : option Z :=
  if decide (label = "strongly like") then Some 5%Z
  else if decide (label = "like") then Some 4%Z
  else if decide (label = "neutral") then Some 3%Z
  else if decide (label = "dislike") then Some 2%Z
  else if decide (label = "strongly dislike") then Some 1%Z
  else None.

(** [a || b] where an absent value and [0] are falsy. *)
Definition jsOr (a b : option Z) : option Z :=
  match a with
  | Some k => if decide (k = 0)%Z then b else a
  | None => b
  end.

(** [intensity || baseScores[reaction] || 3]. *)
Definition reactionToScore (label : string) (intensity : option Z) : Z :=
  default 3%Z (jsOr (jsOr intensity (baseScores label)) (Some 3%Z)).

(** What is pushed on [realtimeReactions$] by [processReaction]. *)
Record RealtimeReaction := mkRealtime {
  rt_sessionId : string;
  rt_reaction : Manager.ReactionData;
  rt_score : Z
}.

(** The engine: [userPreferences$] (profile id to track id to score), the
    catalog [trackFeatures$], what was pushed on [realtimeReactions$], and the
    number of values pushed on [userPreferences$]. *)
Record State := mkState {
  userPreferences : gmap string (gmap string Z);
  trackFeatures : list (string * Features);
  realtimeReactions : list RealtimeReaction;
  preferencesEmitted : nat
}.

Definition initial : State := mkState ∅ builtinCatalog [] 0.

Definition updateUserPreferencesWithScore (profile track : string) (sc : Z)
    (st : State) : State :=
  let userPrefs := default ∅ (userPreferences st !! profile) in
  mkState (<[profile := <[track := sc]> userPrefs]> (userPreferences st))
    (trackFeatures st) (realtimeReactions st) (S (preferencesEmitted st)).

(** The stored score of a profile for a track. *)
Definition preference (st : State) (profile track : string) : option Z :=
  userPreferences st !! profile ≫= λ prefs, prefs !! track.


(** [processReaction(reactionData)]; of the returned object the field
    [nextTracks] is kept. *)
Definition processReaction (sessionId : string) (r : Manager.ReactionData)
    (fallback : list Combined) (diverse : list Recommendation) (st : State)
    : Adaptive * State :=
  let sc := reactionToScore (Manager.reaction r) (Manager.intensity r) in
  let st1 := mkState (userPreferences st) (trackFeatures st)
               (realtimeReactions st ++ [mkRealtime sessionId r sc])
               (preferencesEmitted st) in
  let st2 := updateUserPreferencesWithScore (Manager.profileId r)
               (Manager.trackId r) sc st1 in
  (getAdaptiveRecommendations (trackFeatures st2) fallback diverse r, st2).

(** ** Session context *)

(** [x < y] on numbers. *)
Definition Qltb (x y : Q) : bool := negb (Qle_bool y x).

(** [Math.min(x, y)]. *)
Definition minQ (x y : Q) : Q := if Qle_bool x y then x else y.

(** An entry of [sessionContext$]; a field is [None] when the property is
    absent, as it is for all of them in the [{}] used when the session has no
    entry. *)
Record Context := mkContext {
  timeOfDay : option string;
  sessionDuration : option Q;
  averageReaction : option Q;
  lastTracks : option (list string);
  preferredGenres : option (list string);
  energyLevel : option Q;
  reactionHistory : option (list Manager.ReactionData)
}.

Definition emptyContext : Context :=
  mkContext None None None None None None None.

(** [x > c] and [x < c] where [x] may be [undefined]. *)
Definition above (x : option Q) (c : Q) : bool :=
  match x with Some v => Qltb c v | None => false end.

Definition below (x : option Q) (c : Q) : bool :=
  match x with Some v => Qltb v c | None => false end.

(** ** The contextual strategy *)

(** [lastTracks && lastTracks.includes(trackId)]. *)
Definition recentlyPlayed (ctx : Context) (tid : string) : bool :=
  match lastTracks ctx with
  | Some l => bool_decide (tid ∈ l)
  | None => false
  end.

(** The score that the loop of [getContextualRecommendations] gives a
    track. *)
Definition contextualScore (ctx : Context) (f : Features) : Q :=
  let s0 := (5#10)%Q in
  let s1 := if bool_decide (timeOfDay ctx = Some "morning")
               && Qltb (5#10) (energy f)
            then (s0 + (2#10))%Q else s0 in
  let s2 := if bool_decide (timeOfDay ctx = Some "evening")
               && Qltb (energy f) (5#10)
            then (s1 + (2#10))%Q else s1 in
  let s3 := if above (sessionDuration ctx) (inject_Z (30 * 60 * 1000))
            then (s2 + valence f * (3#10))%Q else s2 in
  let s4 := if above (averageReaction ctx) (35#10) && Qltb (6#10) (valence f)
            then (s3 + (3#10))%Q else s3 in
  if below (averageReaction ctx) (25#10) && Qltb (valence f) (4#10)
  then (s4 - (2#10))%Q else s4.

(** [getContextualRecommendations(sessionId, count)]; [context] is
    [sessionContext$.value.get(sessionId)]. *)
Definition getContextualRecommendations (context : option Context)
    (count : nat) (catalog : list (string * Features)) : list Recommendation :=
  let ctx := default emptyContext context in
  slice 0 count
    (sortDesc score
       (map (λ kf, mkRec kf.1 (contextualScore ctx kf.2) "contextual")
          (filter (λ kf, recentlyPlayed ctx kf.1 = false) catalog))).

(** ** The content-based strategy *)

Definition calculateContextBoost (f : Features) (ctx : Context) : Q :=
  let b0 := 1%Q in
  let b1 := match preferredGenres ctx with
            | Some l => if bool_decide (genre f ∈ l)
                        then (b0 + (3#10))%Q else b0
            | None => b0
            end in
  let b2 := match energyLevel ctx with
            | Some e => if negb (Qeq_bool e 0)
                           && Qltb (Qabs (e - energy f)) (2#10)
                        then (b1 + (2#10))%Q else b1
            | None => b1
            end in
  minQ b2 2.

(** The object built by [calculatePreferenceVector]: [genre] is a [Map]
    from genre to accumulated score. *)
Record PreferenceVector := mkVector {
  pv_genre : list (string * Z);
  pv_era : Q;
  pv_energy : Q;
  pv_valence : Q;
  pv_tempo : Q
}.

(** [genre.set(g, (genre.get(g) || 0) + score)]. *)
Fixpoint genreAdd (g : string) (sc : Z) (m : list (string * Z))
    : list (string * Z) :=
  match m with
  | [] => [(g, sc)]
  | (k, v) :: rest =>
      if decide (k = g) then (k, (v + sc)%Z) :: rest
      else (k, v) :: genreAdd g sc rest
  end.

(** One turn of the loop of [calculatePreferenceVector]; the accumulator is
    the vector and [count]. *)
Definition addPreference (catalog : list (string * Features))
    (acc : PreferenceVector * Z) (entry : string * Z) : PreferenceVector * Z :=
  match catalogGet entry.1 catalog with
  | Some f =>
      if bool_decide (3 ≤ entry.2)%Z then
        (mkVector (genreAdd (genre f) entry.2 (pv_genre acc.1))
           (pv_era acc.1 + inject_Z (era f) * inject_Z entry.2)%Q
           (pv_energy acc.1 + energy f * inject_Z entry.2)%Q
           (pv_valence acc.1 + valence f * inject_Z entry.2)%Q
           (pv_tempo acc.1 + tempo f * inject_Z entry.2)%Q,
         (acc.2 + entry.2)%Z)
      else acc
  | None => acc
  end.

(** [calculatePreferenceVector(preferences)]; [preferences] are the entries
    of the profile's [Map] from track id to score, in iteration order. *)
Definition calculatePreferenceVector (catalog : list (string * Features))
    (preferences : list (string * Z)) : PreferenceVector :=
  let acc := fold_left (addPreference catalog) preferences
               (mkVector [] 0 0 0 0, 0%Z) in
  if bool_decide (0 < acc.2)%Z then
    mkVector (pv_genre acc.1)
      (pv_era acc.1 / inject_Z acc.2)%Q (pv_energy acc.1 / inject_Z acc.2)%Q
      (pv_valence acc.1 / inject_Z acc.2)%Q (pv_tempo acc.1 / inject_Z acc.2)%Q
  else acc.1.

(** [calculateContentSimilarity(preferenceVector, features)]: the [genre] of
    the vector is a [Map], never [===] to the genre string of a track, so
    the genre agreement is 0. *)
Definition vectorSimilarity (v : PreferenceVector) (f : Features) : Q :=
  let genres := 0%Q in
  let eras := (1 - Qabs (pv_era v - inject_Z (era f)) / 50)%Q in
  let energy := (1 - Qabs (pv_energy v - energy f))%Q in
  let valence := (1 - Qabs (pv_valence v - valence f))%Q in
  let tempo := (1 - Qabs (pv_tempo v - tempo f) / 100)%Q in
  (genres * (3#10) + eras * (2#10) + energy * (2#10) + valence * (2#10)
   + tempo * (1#10))%Q.

(** [getContentBasedRecommendations(context, preferences, count)]. *)
Definition getContentBasedRecommendations (ctx : Context)
    (preferences : list (string * Z)) (count : nat)
    (catalog : list (string * Features)) : list Recommendation :=
  let preferenceVector := calculatePreferenceVector catalog preferences in
  slice 0 count
    (sortDesc score
       (map (λ kf, mkRec kf.1
                     (vectorSimilarity preferenceVector kf.2
                      * calculateContextBoost kf.2 ctx)%Q "content")
          catalog)).

(** ** The collaborative strategy *)

(** An element of an entry of [collaborativeModel$]. *)
Record SimilarUser := mkSimilar {
  su_userId : string;
  su_similarity : Q
}.

(** [getCollaborativeRecommendations(profileId, count)]: [similarUsers] is
    [collaborativeModel.get(profileId)], and [preferencesOf u] the entries of
    [userPreferences.get(u)] in iteration order. *)
Definition getCollaborativeRecommendations
    (similarUsers : option (list SimilarUser))
    (preferencesOf : string → option (list (string * Z))) (count : nat)
    : list Recommendation :=
  slice 0 count
    (sortDesc score
       (flat_map
          (λ su, map (λ e, mkRec e.1 (inject_Z e.2 * su_similarity su)%Q
                             "collaborative")
                   (filter (λ e, (4 ≤ e.2)%Z)
                      (default [] (preferencesOf (su_userId su)))))
          (slice 0 5 (default [] similarUsers)))).

(** ** The whole of [getSessionRecommendations] *)

(** What the strategies read: the values of [userPreferences$] (for each
    profile the entries of its [Map], in iteration order), of
    [trackFeatures$], of [sessionContext$] and of [collaborativeModel$]. *)
Record Knowledge := mkKnowledge {
  k_preferences : string → option (list (string * Z));
  k_catalog : list (string * Features);
  k_context : string → option Context;
  k_collaborative : string → option (list SimilarUser)
}.

(** A [for ... of] over [undefined]. *)
Inductive Thrown := TypeError.

(** [getSessionRecommendations(sessionId, profileId = null)]. *)
Definition getSessionRecommendationsOf (K : Knowledge) (sessionId : string)
    (profileId : option string) : Thrown + list Combined :=
  let context := default emptyContext (k_context K sessionId) in
  let preferences :=
    match profileId with
    | Some p => if truthy p then k_preferences K p else Some []
    | None => Some []
    end in
  let collaborativeRecs :=
    getCollaborativeRecommendations (profileId ≫= k_collaborative K)
      (k_preferences K) 5 in
  match preferences with
  | None => inl TypeError
  | Some prefs =>
      let contentRecs :=
        getContentBasedRecommendations context prefs 5 (k_catalog K) in
      let contextRecs :=
        getContextualRecommendations (k_context K sessionId) 5 (k_catalog K) in
      inr (getSessionRecommendations collaborativeRecs contentRecs contextRecs)
  end.

(** [calculateConfidence(sessionId, profileId)]: [preferences] and [context]
    are the entries looked up for the profile and the session. *)
Definition calculateConfidence (preferences : option (list (string * Z)))
    (context : option Context) : Q :=
  match preferences with
  | None => (3#10)%Q
  | Some prefs =>
      if bool_decide (length prefs < 5) then (3#10)%Q
      else
        match context ≫= reactionHistory with
        | None => (5#10)%Q
        | Some history =>
            if bool_decide (length history < 3) then (5#10)%Q
            else minQ (9#10)
                   ((3#10) + inject_Z (Z.of_nat (length prefs)) * (2#100)
                    + inject_Z (Z.of_nat (length history)) * (5#100))%Q
        end
  end.

End Engine.

(* ===================================================================== *)
(** * Track-to-track similarity ([trackSchema.methods.calculateSimilarity]) *)
(* ===================================================================== *)

Module Track.

(** The fields of a track document that [calculateSimilarity] reads.
    [genre], [artist] and [era] are not required by the schema; the five
    features have schema defaults and are always numbers. *)
Record Track := mkTrack {
  genre : option string;
  artist : option string;
  era : option Z;
  energy : R;
  valence : R;
  tempo : R;
  acousticness : R;
  danceability : R
}.

(** [Math.abs(this.era - otherTrack.era) <= 10]; with an absent era the
    difference is [NaN] and the test is false. *)
Definition eraClose (a b : option Z) : bool :=
  match a, b with
  | Some x, Some y => bool_decide (Z.abs (x - y) ≤ 10)%Z
  | _, _ => false
  end.

Definition distance (t o : Track) : R :=
  let energyDiff := ((energy t - energy o) ^ 2)%R in
  let valenceDiff := ((valence t - valence o) ^ 2)%R in
  let tempoDiff := (((tempo t - tempo o) / 100) ^ 2)%R in
  let acousticDiff := ((acousticness t - acousticness o) ^ 2)%R in
  let danceDiff := ((danceability t - danceability o) ^ 2)%R in
  sqrt (energyDiff + valenceDiff + tempoDiff + acousticDiff + danceDiff).

Definition boost (t o : Track) : R :=
  let b0 := 1%R in
  let b1 := if decide (genre t = genre o) then (b0 + 2/10)%R else b0 in
  let b2 := if decide (artist t = artist o) then (b1 + 3/10)%R else b1 in
  if eraClose (era t) (era o) then (b2 + 1/10)%R else b2.

Definition calculateSimilarity (t o : Track) : R :=
  let similarity := (1 / (1 + distance t o))%R in
  Rmin (similarity * boost t o) 1.





End Track.

(* ===================================================================== *)
(** * The transport handlers that record a reaction *)
(* ===================================================================== *)

Module Server.

Record App := mkApp {
  manager : Manager.State;
  engine : Engine.State
}.

(** The body of [POST /:sessionId/reaction] and of a [USER_REACTION]
    message: a reaction without its timestamp. *)
Record ReactionBody := mkBody {
  b_trackId : string;
  b_reaction : string;
  b_intensity : option Z;
  b_profileId : string
}.

Definition stamp (now : Z) (b : ReactionBody) (i : option Z)
    : Manager.ReactionData :=
  Manager.mkReaction (b_trackId b) (b_reaction b) i (b_profileId b) now.

(** The [enum] of the route's body schema. *)
Definition sentimentLabels : list string :=
  ["strongly dislike"; "dislike"; "neutral"; "like"; "strongly like"].

(** The body schema of the route: [reaction] in the enum, [intensity], when
    present, with [minimum: 1] and [maximum: 5]. *)
Definition schemaAccepts (b : ReactionBody) : bool :=
  bool_decide (b_reaction b ∈ sentimentLabels)
  && match b_intensity b with
     | Some k => bool_decide (1 ≤ k ≤ 5)%Z
     | None => true
     end.

Inductive Reply :=
| BadRequest
| Recorded (nextTracks : Engine.Adaptive).

(** [POST /:sessionId/reaction]: a body the schema refuses is answered
    before the handler runs. *)
Definition postReaction (now : Z) (sid : string) (b : ReactionBody)
    (fallback : list Engine.Combined) (diverse : list Engine.Recommendation)
    (app : App) : Reply * App :=
  if schemaAccepts b then
    let r := stamp now b (b_intensity b) in
    let m := Manager.updateUserReaction now sid r (manager app) in
    let '(next, e) :=
      Engine.processReaction sid r fallback diverse (engine app) in
    (Recorded next, mkApp m e)
  else (BadRequest, app).

(** [intensity || 3] of the WebSocket handler. *)
Definition intensityOr3 (i : option Z) : option Z :=
  match i with
  | Some k => if decide (k = 0)%Z then Some 3%Z else Some k
  | None => Some 3%Z
  end.

(** The [USER_REACTION] handler of the WebSocket route. *)
Definition onUserReaction (now : Z) (sid : string) (msg : ReactionBody)
    (fallback : list Engine.Combined) (diverse : list Engine.Recommendation)
    (app : App) : Engine.Adaptive * App :=
  let '(next, e) :=
    Engine.processReaction sid (stamp now msg (intensityOr3 (b_intensity msg)))
      fallback diverse (engine app) in
  let m := Manager.updateUserReaction now sid
             (stamp now msg (b_intensity msg)) (manager app) in
  (next, mkApp m e).

(** ['http_' + x]. *)
Definition httpConnection (x : string) : string := "http_" +:+ x.

Inductive JoinReply :=
| JoinFailed
| JoinedReply (session : Manager.Session)
    (recommendations : list Engine.Combined).

(** [POST /:sessionId/join] for the authenticated user [userId]: the
    connection id is ['http_' + Date.now()]; an exception of either call is
    answered with status 500. *)
Definition postJoin (now : Z) (sid userId profileId : string)
    (K : Engine.Knowledge) (m : Manager.State) : JoinReply * Manager.State :=
  match Manager.joinSession now sid
          (Manager.mkUserInfo userId profileId (httpConnection (pretty now)))
          m with
  | (inl _, m') => (JoinFailed, m')
  | (inr session, m') =>
      match Engine.getSessionRecommendationsOf K sid (Some profileId) with
      | inl _ => (JoinFailed, m')
      | inr recs => (JoinedReply session recs, m')
      end
  end.

(** [POST /:sessionId/leave]: the connection id is
    ['http_' + request.user.id]. *)
Definition postLeave (now : Z) (sid userId : string) (m : Manager.State)
    : Manager.State :=
  Manager.leaveSession now sid (httpConnection userId) m.

End Server.

(* ===================================================================== *)
(** * Concrete stores, catalogs and tracks used in the examples *)
(* ===================================================================== *)

Module Scenario.
Import Manager.

(** The store after [createSession({sessionId: "s1"})] on a new manager. *)
Definition justCreated : State :=
  (createSession 0 (Some "s1") "x" (mkPatch None None None) initial).2.

(** User [u1] with profile [p1] joined session [s1] over connection [c1]. *)
Definition oneUser : State :=
  (joinSession 7 "s1" (mkUserInfo "u1" "p1" "c1") justCreated).2.

(** Two users joined session [s1] over the same connection [c]. *)
Definition sharedConnection : State :=
  (joinSession 2 "s1" (mkUserInfo "u2" "p2" "c")
     (joinSession 1 "s1" (mkUserInfo "u1" "p1" "c") justCreated).2).2.

(** A running application: session [s1] with one user, the engine as
    constructed. *)
Definition app : Server.App := Server.mkApp oneUser Engine.initial.

(** A message whose label is not a sentiment and whose intensity is 9. *)
Definition malformed : Server.ReactionBody :=
  Server.mkBody "track1" "love" (Some 9%Z) "p1".

(** Two tracks that agree on genre, artist, era, energy, valence and tempo;
    one is fully acoustic, the other not at all. *)
Definition acousticTake : Track.Track :=
  Track.mkTrack (Some "folk") (Some "A") (Some 1970%Z)
    (1/2)%R (1/2)%R 120%R 1%R (1/2)%R.

Definition electricTake : Track.Track :=
  Track.mkTrack (Some "folk") (Some "A") (Some 1970%Z)
    (1/2)%R (1/2)%R 120%R 0%R (1/2)%R.

(** A catalog in which two tracks have the same features. *)
Definition twinCatalog : list (string * Engine.Features) :=
  [ ("a", Engine.mkFeatures "folk" 1970 (1#2) (1#2) 100);
    ("b", Engine.mkFeatures "folk" 1970 (1#2) (1#2) 100) ]%Q.

(** Two peers rated track [t] alike: the collaborative strategy proposes it
    twice. *)
Definition proposedTwice : list Engine.Recommendation :=
  [ Engine.mkRec "t" 1 "collaborative"; Engine.mkRec "t" 1 "collaborative" ].


(** Session [s1] created with [maxParticipants: 1], user [u1] in it. *)
Definition fullSession : Manager.State :=
  (Manager.joinSession 1 "s1" (Manager.mkUserInfo "u1" "p1" "c1")
     (Manager.createSession 0 (Some "s1") "x"
        (Manager.mkPatch None None (Some 1%Z)) Manager.initial).2).2.

End Scenario.

(* ===================================================================== *)
(** * Properties of the session store *)
(* ===================================================================== *)

Section ManagerFacts.
Import Manager.

Lemma pget_pset_eq uid p ps : pget uid (pset uid p ps) = Some p.
Proof.
  induction ps as [|[k q] rest IH]; simpl.
  - by rewrite decide_True.
  - destruct (decide (k = uid)) as [->|Hne]; simpl.
    + by rewrite decide_True.
    + by rewrite decide_False.
Qed.

Lemma pget_pset_ne uid k p ps :
  k ≠ uid → pget k (pset uid p ps) = pget k ps.
Proof.
  intros Hne. induction ps as [|[k' q] rest IH]; simpl.
  - by rewrite decide_False.
  - destruct (decide (k' = uid)) as [->|Hne']; simpl.
    + rewrite !decide_False; auto.
    + destruct (decide (k' = k)); auto.
Qed.

Lemma findByConnection_None cid ps :
  findByConnection cid ps = None
  ↔ Forall (λ kp, p_connectionId kp.2 ≠ cid) ps.
Proof.
  induction ps as [|[k q] rest IH]; simpl.
  - split; [constructor | done].
  - destruct (decide (p_connectionId q = cid)) as [Heq|Hne].
    + split; [done|]. inversion 1; subst; simpl in *; congruence.
    + rewrite IH. split.
      * by constructor.
      * by inversion 1.
Qed.

Lemma pdelete_Forall (P : string * Participant → Prop) uid ps :
  Forall P ps → Forall P (pdelete uid ps).
Proof.
  unfold pdelete. induction 1 as [|[k q] rest Hx Hrest IH]; simpl.
  - constructor.
  - rewrite filter_cons. simpl. destruct (decide (k ≠ uid)); auto.
Qed.

Lemma onConnection_0 cid ps :
  onConnection cid ps = 0 → Forall (λ kp, p_connectionId kp.2 ≠ cid) ps.
Proof.
  unfold onConnection. induction ps as [|[k q] rest IH]; simpl.
  - constructor.
  - rewrite filter_cons; simpl.
    destruct (decide (p_connectionId q = cid)); simpl; [discriminate|].
    intros H. constructor; auto.
Qed.

(** Once the participant found for a connection is removed, a connection
    that was used by one participant is used by none. *)
Lemma findByConnection_pdelete cid uid ps :
  findByConnection cid ps = Some uid →
  onConnection cid ps ≤ 1 →
  findByConnection cid (pdelete uid ps) = None.
Proof.
  unfold onConnection, pdelete.
  induction ps as [|[k q] rest IH]; simpl; [done|].
  rewrite !filter_cons; simpl.
  destruct (decide (p_connectionId q = cid)) as [Heq|Hne]; simpl.
  - intros [= ->] Hle.
    rewrite decide_False by (intros Hc; by apply Hc).
    apply findByConnection_None, (pdelete_Forall _ uid), onConnection_0.
    unfold onConnection. lia.
  - intros Hfind Hle. destruct (decide (k ≠ uid)); simpl.
    + rewrite decide_False by done. by apply IH.
    + by apply IH.
Qed.

Lemma endSession_absent now sid st :
  activeSessions st !! sid = None → endSession now sid st = st.
Proof. unfold endSession. by intros ->. Qed.

Lemma endSession_removes now sid st :
  activeSessions (endSession now sid st) !! sid = None.
Proof.
  unfold endSession. destruct (activeSessions st !! sid) eqn:E; [|done].
  simpl. apply lookup_delete_eq.
Qed.

Lemma leaveSession_absent now sid cid st :
  activeSessions st !! sid = None → leaveSession now sid cid st = st.
Proof. unfold leaveSession. by intros ->. Qed.

Lemma leaveSession_unknown_connection now sid cid st s :
  activeSessions st !! sid = Some s →
  findByConnection cid (participants s) = None →
  leaveSession now sid cid st = st.
Proof. unfold leaveSession. by intros -> ->. Qed.

Lemma leaveSession_found now sid cid st s uid :
  activeSessions st !! sid = Some s →
  findByConnection cid (participants s) = Some uid →
  truthy uid = true →
  leaveSession now sid cid st
  = let st1 :=
      emitSessions st
        (<[sid := withParticipants s (pdelete uid (participants s))]>
           (activeSessions st))
        (delete uid (userSessions st)) [USER_LEFT sid uid now] in
    match pdelete uid (participants s) with
    | [] => endSession now sid st1
    | _ => st1
    end.
Proof. unfold leaveSession. by intros -> -> ->. Qed.

End ManagerFacts.

Section SessionStore.
Import Manager Scenario.

(** C7. [joinSession] fails with [SessionNotFound] exactly when the session id
    is absent from the store, and then leaves the whole state as it was.  When
    the session exists the call returns the session it stores back: the
    participant keyed by [userId] is added or overwritten with the join
    timestamp, the other participants and the other fields of the session are
    kept, the user index maps [userId] to the session id, and [USER_JOINED]
    is published. *)
Theorem joinSession_spec (now : Z) (sid : string) (u : UserInfo) (st : State) :
  ((∃ e, (joinSession now sid u st).1 = inl e)
   ↔ activeSessions st !! sid = None)
  ∧ (activeSessions st !! sid = None →
     joinSession now sid u st = (inl (SessionNotFound sid), st))
  ∧ (∀ s, activeSessions st !! sid = Some s →
     ∃ s', (joinSession now sid u st).1 = inr s'
       ∧ activeSessions (joinSession now sid u st).2 !! sid = Some s'
       ∧ pget (userId u) (participants s')
         = Some (mkParticipant (userId u) (ui_profileId u) (connectionId u)
                   now [] 0%R 0)
       ∧ (∀ k, k ≠ userId u →
            pget k (participants s') = pget k (participants s))
       ∧ s' = withParticipants s (participants s')
       ∧ userSessions (joinSession now sid u st).2 !! userId u = Some sid
       ∧ (∀ k, k ≠ userId u →
            userSessions (joinSession now sid u st).2 !! k
            = userSessions st !! k)
       ∧ (∀ k, k ≠ sid →
            activeSessions (joinSession now sid u st).2 !! k
            = activeSessions st !! k)
       ∧ sessionEvents (joinSession now sid u st).2
         = sessionEvents st
           ++ [USER_JOINED sid (userId u) (ui_profileId u) now]).
Proof.
  unfold joinSession. destruct (activeSessions st !! sid) as [s|] eqn:E.
  - split; [|split].
    + split; [intros [e He]; discriminate | discriminate].
    + discriminate.
    + intros s0 [= <-]. eexists. split; [reflexivity|]. simpl.
      repeat split.
      * apply lookup_insert_eq.
      * apply pget_pset_eq.
      * intros k Hk. by apply pget_pset_ne.
      * apply lookup_insert_eq.
      * intros k Hk. by apply lookup_insert_ne.
      * intros k Hk. by apply lookup_insert_ne.
  - split; [|split].
    + split; [done | intros _; by eexists].
    + done.
    + discriminate.
Qed.

(** A session is created, then joined; a join of an unknown id fails. *)
Lemma joinSession_spec_witness :
  (∃ s', (joinSession 7 "s1" (mkUserInfo "u1" "p1" "c1")
            (createSession 0 (Some "s1") "x" (mkPatch None None None)
               initial).2).1 = inr s'
         ∧ pget "u1" (participants s')
           = Some (mkParticipant "u1" "p1" "c1" 7 [] 0%R 0))
  ∧ joinSession 7 "s1" (mkUserInfo "u1" "p1" "c1") initial
    = (inl (SessionNotFound "s1"), initial).
Proof.
  split.
  - destruct (joinSession_spec 7 "s1" (mkUserInfo "u1" "p1" "c1")
                (createSession 0 (Some "s1") "x" (mkPatch None None None)
                   initial).2) as (_ & _ & H).
    destruct (H (mkSession "s1" 0 [] None [] [] (mkMetrics 0 0 0 0 0%R)
                   (mkSettings true 3 10)) eq_refl)
      as (s' & Hret & _ & Hget & _).
    exists s'. split; assumption.
  - destruct (joinSession_spec 7 "s1" (mkUserInfo "u1" "p1" "c1") initial)
      as (_ & H & _).
    apply H. reflexivity.
Defined.

Lemma recordForParticipant_no_match now r ps :
  Forall (λ kp, p_profileId kp.2 ≠ profileId r) ps →
  recordForParticipant now r ps = ps.
Proof.
  induction 1 as [|[k q] rest Hx Hrest IH]; simpl; [done|].
  simpl in Hx. rewrite decide_False by done. by rewrite IH.
Qed.

(** C10. A reaction recorded on an existing session whose profile id is the
    profile of no participant is still appended to the reaction list of the
    session and still counted in its positive or negative counter, and the
    average engagement is still recomputed from the participants; the
    participants (their own reaction lists and engagement scores) are as
    before. *)
Theorem reaction_of_unknown_profile (now : Z) (sid : string)
    (r : ReactionData) (st : State) (s : Session) :
  activeSessions st !! sid = Some s →
  Forall (λ kp, p_profileId kp.2 ≠ profileId r) (participants s) →
  ∃ s', activeSessions (updateUserReaction now sid r st) !! sid = Some s'
    ∧ reactions s' = reactions s ++ [r]
    ∧ participants s' = participants s
    ∧ positiveReactions (metrics s')
      = (positiveReactions (metrics s) + if isPositive r then 1 else 0)%Z
    ∧ negativeReactions (metrics s')
      = (negativeReactions (metrics s)
         + if isPositive r then 0 else if isNegative r then 1 else 0)%Z
    ∧ averageEngagement (metrics s') = meanEngagement (participants s)
    ∧ userReactions (updateUserReaction now sid r st)
      = userReactions st ++ [(sid, r)].
Proof.
  intros Hs Hno. unfold updateUserReaction. rewrite Hs. simpl.
  eexists. split; [apply lookup_insert_eq|]. simpl.
  rewrite (recordForParticipant_no_match _ _ _ Hno).
  repeat split; destruct (isPositive r), (isNegative r); lia.
Qed.

Lemma reaction_of_unknown_profile_witness :
  ∃ s', activeSessions
          (updateUserReaction 9 "s1" (mkReaction "track1" "like" None "ghost" 9)
             (joinSession 7 "s1" (mkUserInfo "u1" "p1" "c1")
                (createSession 0 (Some "s1") "x" (mkPatch None None None)
                   initial).2).2) !! "s1" = Some s'
    ∧ reactions s' = [mkReaction "track1" "like" None "ghost" 9]
    ∧ positiveReactions (metrics s') = 1%Z
    ∧ map (λ kp, p_reactions kp.2) (participants s') = [[]].
Proof.
  destruct (reaction_of_unknown_profile 9 "s1"
              (mkReaction "track1" "like" None "ghost" 9)
              (joinSession 7 "s1" (mkUserInfo "u1" "p1" "c1")
                 (createSession 0 (Some "s1") "x" (mkPatch None None None)
                    initial).2).2
              (mkSession "s1" 0
                 [("u1", mkParticipant "u1" "p1" "c1" 7 [] 0%R 0)]
                 None [] [] (mkMetrics 0 0 0 0 0%R) (mkSettings true 3 10))
              eq_refl)
    as (s' & Hs' & Hr & Hp & Hpos & _).
  - repeat constructor. simpl. discriminate.
  - exists s'. rewrite Hr, Hp, Hpos. repeat split; assumption.
Defined.

(** C1, as stated, fails: the store reached by one [createSession] holds a
    session without participants. *)
Lemma created_session_has_no_participant :
  reachable justCreated ∧ ¬ noEmptySession justCreated.
Proof.
  split.
  - apply reach_create, reach_initial.
  - intros H.
    by apply (H "s1" (mkSession "s1" 0 [] None [] [] (mkMetrics 0 0 0 0 0%R)
                        (mkSettings true 3 10))).
Qed.

(** C1, amended.  A [leaveSession] never leaves behind a session it has
    emptied: if the session is in the store after the call and has no
    participant, the call removed nobody and changed nothing (the session was
    already empty before).  Such sessions exist: [createSession] stores the
    new session without participants. *)
Theorem leave_never_keeps_emptied_session (now : Z) (sid cid : string)
    (st : State) :
  (∀ s', activeSessions (leaveSession now sid cid st) !! sid = Some s' →
         participants s' = [] →
         leaveSession now sid cid st = st)
  ∧ (∀ t optId uuid patch,
       let created := createSession t optId uuid patch st in
       activeSessions created.2 !! id created.1 = Some created.1
       ∧ participants created.1 = []).
Proof.
  split.
  - intros s'. unfold leaveSession.
    destruct (activeSessions st !! sid) as [s|] eqn:Es; [|done].
    destruct (findByConnection cid (participants s)) as [uid|]; [|done].
    destruct (truthy uid); [|done]. cbn [participants withParticipants].
    destruct (pdelete uid (participants s)) as [|kp rest].
    + intros Hlook. by rewrite endSession_removes in Hlook.
    + simpl. rewrite lookup_insert_eq. by intros [= <-].
  - intros t optId uuid patch. simpl. split; [|done].
    apply lookup_insert_eq.
Qed.

(** A leave on a session that was created and never joined finds the session
    in the store, without participants, and changes nothing. *)
Lemma leave_never_keeps_emptied_session_witness :
  leaveSession 9 "s1" "c1" justCreated = justCreated.
Proof.
  exact (proj1 (leave_never_keeps_emptied_session 9 "s1" "c1" justCreated)
           (mkSession "s1" 0 [] None [] [] (mkMetrics 0 0 0 0 0%R)
              (mkSettings true 3 10))
           eq_refl eq_refl).
Defined.

(** When the last participant leaves, the session is gone from the store. *)
Lemma last_leave_ends_session :
  activeSessions (leaveSession 9 "s1" "c1" oneUser) !! "s1" = None.
Proof. reflexivity. Qed.

(** C6, as stated, fails: when two participants of the session use the same
    connection id the first [leaveSession] removes one of them and the second
    removes the other (and ends the session). *)
Lemma second_leave_removes_second_user :
  reachable sharedConnection
  ∧ leaveSession 4 "s1" "c" (leaveSession 3 "s1" "c" sharedConnection)
    ≠ leaveSession 3 "s1" "c" sharedConnection.
Proof.
  split.
  - do 2 apply reach_join. apply reach_create, reach_initial.
  - intros H. apply (f_equal (λ st, activeSessions st !! "s1")) in H.
    vm_compute in H. discriminate.
Qed.

(** C6, amended.  When at most one participant of the session uses the
    connection id, a second [leaveSession] with the same arguments changes
    nothing: the session table, the participants, the user index and the
    published events are those left by the first call.  The call is also
    without effect when the session is unknown or no participant uses the
    connection. *)
Theorem leaveSession_twice (now1 now2 : Z) (sid cid : string) (st : State) :
  (∀ s, activeSessions st !! sid = Some s →
        onConnection cid (participants s) ≤ 1) →
  leaveSession now2 sid cid (leaveSession now1 sid cid st)
  = leaveSession now1 sid cid st
  ∧ (activeSessions st !! sid = None → leaveSession now1 sid cid st = st)
  ∧ (∀ s, activeSessions st !! sid = Some s →
          onConnection cid (participants s) = 0 →
          leaveSession now1 sid cid st = st).
Proof.
  intros Huniq. split; [|split].
  - destruct (activeSessions st !! sid) as [s|] eqn:Es.
    2:{ rewrite (leaveSession_absent now1) by done.
        by apply leaveSession_absent. }
    destruct (findByConnection cid (participants s)) as [uid|] eqn:Ef.
    2:{ rewrite (leaveSession_unknown_connection now1 _ _ _ s) by done.
        by apply (leaveSession_unknown_connection _ _ _ _ s). }
    destruct (truthy uid) eqn:Et.
    2:{ unfold leaveSession. by rewrite Es, Ef, Et, Es, Ef, Et. }
    rewrite (leaveSession_found now1 _ _ _ s uid) by done.
    pose proof (findByConnection_pdelete cid uid (participants s) Ef
                  (Huniq s eq_refl)) as Hgone.
    cbn [participants withParticipants].
    destruct (pdelete uid (participants s)) as [|kp rest].
    + apply leaveSession_absent, endSession_removes.
    + apply (leaveSession_unknown_connection _ _ _ _
               (withParticipants s (kp :: rest))).
      * simpl. apply lookup_insert_eq.
      * exact Hgone.
  - apply leaveSession_absent.
  - intros s Hs H0. apply (leaveSession_unknown_connection _ _ _ _ s Hs).
    by apply findByConnection_None, onConnection_0.
Qed.

Lemma leaveSession_twice_witness :
  leaveSession 9 "s1" "c1"
    (leaveSession 8 "s1" "c1"
       oneUser)
  = leaveSession 8 "s1" "c1"
      oneUser.
Proof.
  apply (leaveSession_twice 8 9 "s1" "c1"
           oneUser).
  intros s [= <-]. vm_compute. lia.
Defined.

End SessionStore.

(* ===================================================================== *)
(** * Engagement *)
(* ===================================================================== *)

Section Engagement.
Import Manager.
Local Open Scope R_scope.

Lemma Rsum_from (xs : list R) (a : R) :
  fold_left Rplus xs a = a + fold_right Rplus 0 xs.
Proof.
  revert a. induction xs as [|x xs IH]; intros a; simpl.
  - lra.
  - rewrite IH. lra.
Qed.

Lemma Rsum_fold_right (xs : list R) : Rsum xs = fold_right Rplus 0 xs.
Proof. unfold Rsum. rewrite Rsum_from. lra. Qed.

Lemma intensityScore_valid (r : ReactionData) :
  validIntensity r → intensityScore r = default 3%Z (intensity r).
Proof.
  unfold validIntensity, intensityScore.
  destruct (intensity r) as [k|]; [|done].
  intros Hk. simpl. rewrite decide_False; [done | lia].
Qed.





End Engagement.

(* ===================================================================== *)
(** * The preference model and the validation of reactions *)
(* ===================================================================== *)

Section Preferences.
Import Engine.


Lemma preference_updated profile track sc st :
  preference (updateUserPreferencesWithScore profile track sc st) profile track
  = Some sc.
Proof.
  unfold preference, updateUserPreferencesWithScore. simpl.
  rewrite lookup_insert_eq. simpl. apply lookup_insert_eq.
Qed.




(** The route refuses a body that its schema does not accept, and then
    nothing is changed. *)
Lemma postReaction_rejects now sid b fallback diverse app :
  Server.schemaAccepts b = false →
  Server.postReaction now sid b fallback diverse app = (Server.BadRequest, app).
Proof. unfold Server.postReaction. by intros ->. Qed.

(** [updateUserReaction] itself appends whatever it is given. *)
Lemma updateUserReaction_appends now sid r st s :
  Manager.activeSessions st !! sid = Some s →
  ∃ s', Manager.activeSessions (Manager.updateUserReaction now sid r st) !! sid
        = Some s'
    ∧ Manager.reactions s' = Manager.reactions s ++ [r].
Proof.
  intros Hs. unfold Manager.updateUserReaction. rewrite Hs.
  eexists. split; [apply lookup_insert_eq | reflexivity].
Qed.

(** C2, on the code.  The message [{reaction: "love", intensity: 9}] is
    refused by the schema of the HTTP route, which leaves the application
    unchanged; sent as a [USER_REACTION] over the WebSocket it is recorded:
    the reaction list of the session and of the participant receive it, the
    positive counter is incremented and the preference model stores 9. *)
Theorem websocket_records_malformed_reaction :
  Server.schemaAccepts Scenario.malformed = false
  ∧ Server.postReaction 9 "s1" Scenario.malformed [] [] Scenario.app
    = (Server.BadRequest, Scenario.app)
  ∧ ∃ s p,
      Manager.activeSessions
        (Server.manager
           (Server.onUserReaction 9 "s1" Scenario.malformed [] []
              Scenario.app).2) !! "s1" = Some s
      ∧ Manager.reactions s
        = [Manager.mkReaction "track1" "love" (Some 9%Z) "p1" 9]
      ∧ Manager.pget "u1" (Manager.participants s) = Some p
      ∧ Manager.p_reactions p
        = [Manager.mkReaction "track1" "love" (Some 9%Z) "p1" 9]
      ∧ Manager.positiveReactions (Manager.metrics s) = 1%Z
      ∧ preference
          (Server.engine
             (Server.onUserReaction 9 "s1" Scenario.malformed [] []
                Scenario.app).2) "p1" "track1" = Some 9%Z.
Proof.
  split; [reflexivity|]. split; [reflexivity|].
  eexists. eexists.
  split; [reflexivity|]. split; [reflexivity|]. split; [reflexivity|].
  split; [reflexivity|]. split; reflexivity.
Qed.

End Preferences.

(* ===================================================================== *)
(** * Track-to-track similarity *)
(* ===================================================================== *)

Section TrackSimilarity.
Import Track.
Local Open Scope R_scope.

Lemma boost_ge (t o : Track) : genre t = genre o → 12 / 10 <= boost t o.
Proof.
  intros Hg. unfold boost.
  destruct (decide (genre t = genre o)); [|done].
  destruct (decide (artist t = artist o)), (eraClose (era t) (era o)); lra.
Qed.

(** C8, as stated, fails: two tracks with the same genre, era, energy,
    valence and tempo (and artist) that differ in acousticness by 1 have
    similarity 0.8. *)
Lemma acousticness_lowers_similarity :
  genre Scenario.acousticTake = genre Scenario.electricTake
  ∧ era Scenario.acousticTake = era Scenario.electricTake
  ∧ energy Scenario.acousticTake = energy Scenario.electricTake
  ∧ valence Scenario.acousticTake = valence Scenario.electricTake
  ∧ tempo Scenario.acousticTake = tempo Scenario.electricTake
  ∧ calculateSimilarity Scenario.acousticTake Scenario.electricTake = 8 / 10
  ∧ calculateSimilarity Scenario.acousticTake Scenario.electricTake ≠ 1.
Proof.
  assert (Hd : distance Scenario.acousticTake Scenario.electricTake = 1).
  { unfold distance. simpl.
    match goal with |- sqrt ?x = _ => replace x with 1 by lra end.
    apply sqrt_1. }
  assert (Hb : boost Scenario.acousticTake Scenario.electricTake = 16 / 10).
  { unfold boost. simpl. lra. }
  assert (Hs : calculateSimilarity Scenario.acousticTake Scenario.electricTake
               = 8 / 10).
  { unfold calculateSimilarity. rewrite Hd, Hb.
    unfold Rmin. destruct (Rle_dec _ _); lra. }
  repeat split; try reflexivity; [exact Hs | rewrite Hs; lra].
Qed.

(** C8, amended.  Two tracks whose genre, era, energy, valence, tempo,
    acousticness and danceability are all equal have track-to-track
    similarity exactly 1: the distance is 0, the similarity [1 / (1 + 0)] is
    multiplied by a boost of at least 1.2 and capped at 1. *)
Theorem identical_features_similarity_one (t o : Track) :
  genre t = genre o → era t = era o →
  energy t = energy o → valence t = valence o → tempo t = tempo o →
  acousticness t = acousticness o → danceability t = danceability o →
  calculateSimilarity t o = 1.
Proof.
  intros Hg _ He Hv Ht Ha Hdn.
  assert (Hd : distance t o = 0).
  { unfold distance. rewrite He, Hv, Ht, Ha, Hdn.
    match goal with |- sqrt ?x = _ => replace x with 0 by lra end.
    apply sqrt_0. }
  unfold calculateSimilarity. rewrite Hd.
  pose proof (boost_ge t o Hg) as Hb.
  unfold Rmin. destruct (Rle_dec _ _); lra.
Qed.

Lemma identical_features_similarity_one_witness :
  calculateSimilarity Scenario.acousticTake Scenario.acousticTake = 1.
Proof.
  apply identical_features_similarity_one; reflexivity.
Defined.

End TrackSimilarity.

(* ===================================================================== *)
(** * Sorting by descending score *)
(* ===================================================================== *)

Section SortFacts.
Import Engine.
Context {A : Type} (key : A → Q).

Lemma insertDesc_perm (x : A) (l : list A) : insertDesc key x l ≡ₚ x :: l.
Proof.
  induction l as [|y ys IH]; simpl; [done|].
  destruct (Qle_bool (key y) (key x)); [done|].
  rewrite IH. apply Permutation_swap.
Qed.

Lemma sortDesc_perm (l : list A) : sortDesc key l ≡ₚ l.
Proof.
  induction l as [|x xs IH]; simpl; [done|].
  by rewrite insertDesc_perm, IH.
Qed.

Lemma sortDesc_elem (x : A) (l : list A) : x ∈ sortDesc key l ↔ x ∈ l.
Proof. by rewrite sortDesc_perm. Qed.

Lemma sortDesc_Forall (P : A → Prop) (l : list A) :
  Forall P l → Forall P (sortDesc key l).
Proof. by rewrite sortDesc_perm. Qed.

Lemma sortDesc_length (l : list A) : length (sortDesc key l) = length l.
Proof. by rewrite sortDesc_perm. Qed.

Lemma insertDesc_descending (x : A) (l : list A) :
  descending key l → descending key (insertDesc key x l).
Proof.
  unfold descending. induction 1 as [|y ys Hys IH Hall]; simpl.
  - repeat constructor.
  - destruct (Qle_bool (key y) (key x)) eqn:E.
    + apply Qle_bool_iff in E. constructor; [by constructor|].
      constructor; [done|].
      eapply Forall_impl; [exact Hall|]. intros z Hz. simpl in Hz.
      by apply Qle_trans with (key y).
    + constructor; [done|].
      rewrite insertDesc_perm. constructor; [|done].
      destruct (Qlt_le_dec (key x) (key y)) as [Hlt|Hle].
      * by apply Qlt_le_weak.
      * apply Qle_bool_iff in Hle. congruence.
Qed.

Lemma sortDesc_descending (l : list A) : descending key (sortDesc key l).
Proof.
  induction l as [|x xs IH]; simpl.
  - constructor.
  - by apply insertDesc_descending.
Qed.

Lemma descending_firstn (n : nat) (l : list A) :
  descending key l → descending key (firstn n l).
Proof.
  unfold descending. intros H. revert n.
  induction H as [|y ys Hys IH Hall]; intros [|n]; simpl; try constructor.
  - apply IH.
  - by apply Forall_take.
Qed.

(** In a descending list what is cut off by [firstn] scores no more than
    what is kept. *)
Lemma descending_cut (n : nat) (l : list A) (a b : A) :
  descending key l → a ∈ firstn n l → b ∈ skipn n l → (key b <= key a)%Q.
Proof.
  unfold descending. intros H. revert n.
  induction H as [|y ys Hys IH Hall]; intros [|n]; simpl.
  - by intros ?%elem_of_nil.
  - by intros ?%elem_of_nil.
  - by intros ?%elem_of_nil.
  - intros [->|Ha]%elem_of_cons Hb.
    + apply (Forall_drop _ n) in Hall.
      by apply (proj1 (list.Forall_forall _ _) Hall).
    + by apply (IH n).
Qed.

(** An element that scores at least as much as all the others is put
    first. *)
Lemma insertDesc_front (x : A) (l : list A) :
  Forall (λ y, (key y <= key x)%Q) l → insertDesc key x l = x :: l.
Proof.
  destruct 1 as [|y ys Hy _]; simpl; [done|].
  apply Qle_bool_iff in Hy. by rewrite Hy.
Qed.

(** The sort is stable: an element that scores more than everything before
    it and at least as much as everything after it comes first, and the rest
    is sorted as if it were not there. *)
Lemma sortDesc_max_first (x : A) (l1 l2 : list A) :
  Forall (λ y, (key y < key x)%Q) l1 →
  Forall (λ y, (key y <= key x)%Q) l2 →
  sortDesc key (l1 ++ x :: l2) = x :: sortDesc key (l1 ++ l2).
Proof.
  intros H1 H2. induction H1 as [|a l1 Ha Hl1 IH]; simpl.
  - apply insertDesc_front. by apply sortDesc_Forall.
  - rewrite IH. simpl.
    destruct (Qle_bool (key x) (key a)) eqn:E; [|done].
    apply Qle_bool_iff in E. exfalso. by apply (Qlt_not_le _ _ Ha).
Qed.

End SortFacts.

(* ===================================================================== *)
(** * Adaptive recommendations after a positive reaction *)
(* ===================================================================== *)

Section SimilarTracks.
Import Engine.

(** The five agreements of [calculateContentSimilarity], as distances. *)
Lemma similarity_expanded (f g : Features) :
  (calculateContentSimilarity f g
   == (if decide (genre f = genre g) then 1 else 0) * (3#10)
      + (1 - inject_Z (Z.abs (era f - era g)) * (1#50)) * (2#10)
      + (1 - Qabs (energy f - energy g)) * (2#10)
      + (1 - Qabs (valence f - valence g)) * (2#10)
      + (1 - Qabs (tempo f - tempo g) * (1#100)) * (1#10))%Q.
Proof. reflexivity. Qed.

Lemma era_distance_nonneg (a b : Z) : (0 <= inject_Z (Z.abs (a - b)))%Q.
Proof.
  change 0%Q with (inject_Z 0). rewrite <- Zle_Qle. apply Z.abs_nonneg.
Qed.

Lemma similarity_le_one (f g : Features) :
  (calculateContentSimilarity f g <= 1)%Q.
Proof.
  rewrite similarity_expanded.
  pose proof (era_distance_nonneg (era f) (era g)).
  pose proof (Qabs_nonneg (energy f - energy g)).
  pose proof (Qabs_nonneg (valence f - valence g)).
  pose proof (Qabs_nonneg (tempo f - tempo g)).
  destruct (decide (genre f = genre g)); lra.
Qed.

Lemma Qabs_zero (x : Q) : (Qabs x <= 0)%Q → (x == 0)%Q.
Proof.
  intros H. apply Qabs_Qle_condition in H. destruct H as [H1 H2].
  apply Qle_antisym; [exact H2|]. revert H1. change (-0)%Q with 0%Q. done.
Qed.

(** Only a track with the same five features reaches similarity 1. *)
Lemma similarity_one_same (f g : Features) :
  (1 <= calculateContentSimilarity f g)%Q → sameFeatures f g.
Proof.
  rewrite similarity_expanded.
  pose proof (era_distance_nonneg (era f) (era g)) as He.
  pose proof (Qabs_nonneg (energy f - energy g)) as Hn.
  pose proof (Qabs_nonneg (valence f - valence g)) as Hv.
  pose proof (Qabs_nonneg (tempo f - tempo g)) as Ht.
  destruct (decide (genre f = genre g)) as [Hg|Hg]; intros H; [|lra].
  assert (Hera : (inject_Z (Z.abs (era f - era g)) <= inject_Z 0)%Q)
    by (change (inject_Z 0) with 0%Q; lra).
  rewrite <- Zle_Qle in Hera.
  assert (HE : (Qabs (energy f - energy g) <= 0)%Q) by lra.
  assert (HV : (Qabs (valence f - valence g) <= 0)%Q) by lra.
  assert (HT : (Qabs (tempo f - tempo g) <= 0)%Q) by lra.
  apply Qabs_zero in HE, HV, HT.
  repeat split; [done | lia | lra | lra | lra].
Qed.

Lemma similarity_self (f : Features) :
  (calculateContentSimilarity f f == 1)%Q.
Proof.
  rewrite similarity_expanded.
  destruct (decide (genre f = genre f)); [|done].
  rewrite Z.sub_diag.
  assert (H : ∀ x : Q, (Qabs (x - x) == 0)%Q).
  { intros x. assert (E : (x - x == 0)%Q) by ring. by rewrite E. }
  rewrite !H. reflexivity.
Qed.

Lemma similarities_app f l1 l2 :
  similarities f (l1 ++ l2) = similarities f l1 ++ similarities f l2.
Proof. apply map_app. Qed.

Lemma catalogGet_app_found tid f (l1 l2 : list (string * Features)) :
  tid ∉ map fst l1 → catalogGet tid (l1 ++ (tid, f) :: l2) = Some f.
Proof.
  induction l1 as [|[k g] l1 IH]; simpl; intros Hnotin.
  - by rewrite decide_True.
  - apply not_elem_of_cons in Hnotin as [Hne Hnotin]. simpl in Hne.
    rewrite decide_False by done. by apply IH.
Qed.

Lemma similarities_ids f l rec :
  rec ∈ similarities f l →
  reason rec = "similar"
  ∧ ∃ g, (trackId rec, g) ∈ l ∧ score rec = calculateContentSimilarity f g.
Proof.
  unfold similarities. intros ([k g] & -> & Hin)%list_elem_of_fmap.
  simpl. split; [done|]. by exists g.
Qed.

Lemma positiveReaction_spec (r : Manager.ReactionData) :
  positiveReaction r = true
  ↔ Manager.reaction r = "like" ∨ Manager.reaction r = "strongly like"
    ∨ ∃ k, Manager.intensity r = Some k ∧ (4 ≤ k)%Z.
Proof.
  unfold positiveReaction, Manager.intensityGe4.
  rewrite !orb_true_iff, !bool_decide_eq_true.
  destruct (Manager.intensity r) as [k|].
  - rewrite bool_decide_eq_true. split.
    + intros [[H|H]|H]; eauto.
    + intros [H|[H|(k' & [= <-] & H)]]; auto.
  - split.
    + intros [[H|H]|H]; auto. discriminate.
    + intros [H|[H|(k' & [=] & H)]]; auto.
Qed.

(** C3, as stated, fails.  On the catalog of the engine a "like" on [track1]
    returns the four other tracks, not five; and on a catalog where track [a]
    has the features of track [b] and is listed before it, a "like" on [b]
    returns [b] itself (and not [a]). *)
Lemma similar_tracks_fewer_or_self :
  (∃ recs,
     getAdaptiveRecommendations builtinCatalog [] []
       (Manager.mkReaction "track1" "like" None "p" 0) = Tracks recs
     ∧ map trackId recs = ["track5"; "track4"; "track2"; "track3"]
     ∧ length recs ≠ 5)
  ∧ (∃ recs,
       getAdaptiveRecommendations Scenario.twinCatalog [] []
         (Manager.mkReaction "b" "like" None "p" 0) = Tracks recs
       ∧ map trackId recs = ["b"]).
Proof.
  split; eexists; (split; [reflexivity|]); [split|]; [reflexivity | | reflexivity].
  simpl. discriminate.
Qed.

(** C3, amended.  Let the reacted track have features [f] in the catalog,
    and let no track listed before it have the same genre, era, energy,
    valence and tempo.  After a positive reaction ("like", "strongly like",
    or intensity at least 4) the adaptive recommendation is the ranking of the
    other catalog tracks by descending content similarity to [f], cut to its
    first 5: the reacted track is not in it, it has [min 5 (n - 1)] entries
    for a catalog of [n] tracks, every entry has reason "similar" (never
    "contrasting", also for a "strongly like" without intensity) and the
    similarity of its track as score, and no track that is cut off scores
    more than a track that is returned.  The catalog is a [Map]: its keys
    are distinct. *)
Theorem similar_tracks_after_positive_reaction
    (l1 l2 : list (string * Features)) (f : Features)
    (fallback : list Combined) (diverse : list Recommendation)
    (r : Manager.ReactionData) :
  NoDup (map fst (l1 ++ (Manager.trackId r, f) :: l2)) →
  Forall (λ kf, ¬ sameFeatures f kf.2) l1 →
  Manager.reaction r = "like" ∨ Manager.reaction r = "strongly like"
  ∨ (∃ k, Manager.intensity r = Some k ∧ (4 ≤ k)%Z) →
  let ranking := sortDesc score (similarities f (l1 ++ l2)) in
  getAdaptiveRecommendations (l1 ++ (Manager.trackId r, f) :: l2)
    fallback diverse r = Tracks (firstn 5 ranking)
  ∧ descending score ranking
  ∧ length (firstn 5 ranking) = min 5 (length (l1 ++ l2))
  ∧ (∀ rec, rec ∈ firstn 5 ranking →
       trackId rec ≠ Manager.trackId r
       ∧ reason rec = "similar" ∧ reason rec ≠ "contrasting"
       ∧ ∃ g, (trackId rec, g) ∈ l1 ++ l2
              ∧ score rec = calculateContentSimilarity f g)
  ∧ (∀ kept cut, kept ∈ firstn 5 ranking → cut ∈ skipn 5 ranking →
       (score cut <= score kept)%Q).
Proof.
  intros Hnd Hfirst Hpos ranking.
  apply positiveReaction_spec in Hpos.
  rewrite map_app in Hnd. simpl in Hnd.
  apply NoDup_app in Hnd as (Hnd1 & Hdisj & Hnd2).
  apply NoDup_cons in Hnd2 as (Hnot2 & Hnd2).
  assert (Hnot1 : Manager.trackId r ∉ map fst l1).
  { intros Hin. apply (Hdisj _ Hin). apply elem_of_cons. by left. }
  split; [|split; [|split; [|split]]].
  - unfold getAdaptiveRecommendations.
    rewrite (catalogGet_app_found _ f l1 l2 Hnot1), Hpos.
    unfold getSimilarTracks. rewrite similarities_app. simpl.
    rewrite sortDesc_max_first.
    + unfold slice. simpl. by rewrite <- similarities_app.
    + unfold similarities. apply Forall_fmap.
      eapply Forall_impl; [exact Hfirst|]. intros [k g] Hg. simpl in *.
      rewrite similarity_self.
      destruct (Qlt_le_dec (calculateContentSimilarity f g) 1) as [|Hge];
        [done|].
      by apply similarity_one_same in Hge.
    + unfold similarities. apply Forall_fmap, Forall_forall.
      intros [k g] _. simpl. rewrite similarity_self.
      apply similarity_le_one.
  - apply sortDesc_descending.
  - rewrite length_take. unfold ranking, similarities.
    by rewrite sortDesc_length, length_map.
  - intros rec Hin.
    assert (Hrec : rec ∈ similarities f (l1 ++ l2)).
    { apply (sortDesc_elem score). by apply (subseteq_take 5 ranking). }
    destruct (similarities_ids _ _ _ Hrec) as (Hreason & g & Hg & Hscore).
    split; [|split; [done|split; [by rewrite Hreason|by exists g]]].
    intros Heq. rewrite Heq in Hg.
    apply elem_of_app in Hg as [Hg|Hg].
    + apply Hnot1. apply list_elem_of_fmap. by exists (Manager.trackId r, g).
    + apply Hnot2. apply list_elem_of_fmap. by exists (Manager.trackId r, g).
  - intros kept cut Hk Hc.
    apply (descending_cut score 5 ranking); [|done|done].
    apply sortDesc_descending.
Qed.

(** On the catalog of the engine: a "strongly like" on [track1], without
    intensity, returns the four other tracks ranked by similarity. *)
Lemma similar_tracks_after_positive_reaction_witness :
  getAdaptiveRecommendations builtinCatalog [] []
    (Manager.mkReaction "track1" "strongly like" None "p" 0)
  = Tracks
      (firstn 5
         (sortDesc score
            (similarities (mkFeatures "classical" 1960 (3#10) (7#10) 80)
               (tl builtinCatalog)))).
Proof.
  refine (proj1 (similar_tracks_after_positive_reaction []
                   (tl builtinCatalog)
                   (mkFeatures "classical" 1960 (3#10) (7#10) 80) [] []
                   (Manager.mkReaction "track1" "strongly like" None "p" 0)
                   _ _ _)).
  - apply (bool_decide_unpack _). vm_compute. exact I.
  - constructor.
  - right. left. reflexivity.
Defined.

End SimilarTracks.

(* ===================================================================== *)
(** * The combiner *)
(* ===================================================================== *)

Section Combiner.
Import Engine.

Lemma accumulateSource_all recs w combined :
  accumulateSource combined (recs, w)
  = accumulateAll (map (λ r, (r, w)) recs) combined.
Proof.
  unfold accumulateSource, accumulateAll. simpl. revert combined.
  induction recs as [|r recs IH]; intros combined; simpl; [done|]. apply IH.
Qed.

Lemma accumulateAll_app p1 p2 combined :
  accumulateAll (p1 ++ p2) combined = accumulateAll p2 (accumulateAll p1 combined).
Proof. apply fold_left_app. Qed.

Lemma combine_three a b c :
  fold_left accumulateSource [(a, (4#10)%Q); (b, (4#10)%Q); (c, (2#10)%Q)] []
  = accumulateAll (proposals a b c) [].
Proof.
  unfold proposals. simpl. rewrite !accumulateSource_all.
  by rewrite !accumulateAll_app.
Qed.

Lemma weightedSum_snoc tid props rec w :
  (weightedSum tid (props ++ [(rec, w)])
   == weightedSum tid props
      + if decide (trackId rec = tid) then score rec * w else 0)%Q.
Proof.
  induction props as [|[r0 w0] props IH]; simpl.
  - destruct (decide (trackId rec = tid)); ring.
  - destruct (decide (trackId r0 = tid)); rewrite IH; ring.
Qed.

Lemma reasonsOf_snoc tid props rec w :
  reasonsOf tid (props ++ [(rec, w)])
  = reasonsOf tid props ++ if decide (trackId rec = tid) then [reason rec] else [].
Proof.
  unfold reasonsOf. rewrite filter_app, map_app. f_equal.
  rewrite filter_cons, filter_nil. simpl.
  by destruct (decide (trackId rec = tid)).
Qed.

Lemma weightedSum_unproposed tid props :
  Forall (λ pw, trackId pw.1 ≠ tid) props →
  weightedSum tid props = 0%Q ∧ reasonsOf tid props = [].
Proof.
  unfold reasonsOf. induction 1 as [|[r0 w0] props Hx Hrest [IH1 IH2]]; simpl.
  - done.
  - simpl in Hx. rewrite filter_cons. simpl.
    by rewrite !decide_False by done.
Qed.

Lemma cget_accumulate tid rec w combined :
  cget tid (accumulate rec w combined)
  = if decide (trackId rec = tid) then
      Some (match cget tid combined with
            | Some c => mkCombined (c_trackId c) (c_score c + score rec * w)%Q
                          (c_reasons c ++ [reason rec])
            | None => mkCombined (trackId rec) (score rec * w)%Q [reason rec]
            end)
    else cget tid combined.
Proof.
  induction combined as [|c rest IH]; simpl.
  - destruct (decide (trackId rec = tid)); done.
  - destruct (decide (c_trackId c = trackId rec)) as [Hc|Hc]; simpl.
    + destruct (decide (trackId rec = tid)) as [Ht|Ht].
      * rewrite !decide_True by congruence. done.
      * rewrite !decide_False by congruence. done.
    + destruct (decide (c_trackId c = tid)) as [Hct|Hct].
      * rewrite decide_False by congruence. done.
      * apply IH.
Qed.

Lemma accumulate_keys x rec w combined :
  x ∈ map c_trackId (accumulate rec w combined) →
  x ∈ map c_trackId combined ∨ x = trackId rec.
Proof.
  induction combined as [|c rest IH]; simpl.
  - intros [->|[]%elem_of_nil]%elem_of_cons. by right.
  - destruct (decide (c_trackId c = trackId rec)); simpl.
    + by left.
    + intros [->|Hin]%elem_of_cons.
      * left. apply elem_of_cons. by left.
      * destruct (IH Hin) as [?|?]; [left|by right].
        apply elem_of_cons. by right.
Qed.

Lemma accumulate_NoDup rec w combined :
  NoDup (map c_trackId combined) →
  NoDup (map c_trackId (accumulate rec w combined)).
Proof.
  induction combined as [|c rest IH]; simpl; intros Hnd.
  - apply NoDup_singleton.
  - apply NoDup_cons in Hnd as [Hnotin Hnd].
    destruct (decide (c_trackId c = trackId rec)) as [Hc|Hc]; simpl.
    + by apply NoDup_cons.
    + apply NoDup_cons. split; [|by apply IH].
      intros Hin. by destruct (accumulate_keys _ _ _ _ Hin).
Qed.

Lemma cget_elem c combined :
  NoDup (map c_trackId combined) → c ∈ combined →
  cget (c_trackId c) combined = Some c.
Proof.
  induction combined as [|c0 rest IH]; simpl; intros Hnd Hin.
  - by apply elem_of_nil in Hin.
  - apply NoDup_cons in Hnd as [Hnotin Hnd].
    apply elem_of_cons in Hin as [->|Hin].
    + by rewrite decide_True.
    + rewrite decide_False; [by apply IH|].
      intros Heq. apply Hnotin. rewrite Heq.
      apply list_elem_of_fmap. by exists c.
Qed.

Lemma tallies_accumulateAll props : tallies props (accumulateAll props []).
Proof.
  induction props as [|[rec w] props IH] using rev_ind.
  - split; [constructor|]. intros tid. simpl. constructor.
  - destruct IH as [Hnd IH]. rewrite accumulateAll_app. simpl.
    split; [by apply accumulate_NoDup|].
    intros tid. rewrite cget_accumulate. specialize (IH tid).
    destruct (decide (trackId rec = tid)) as [Heq|Hne].
    + destruct (cget tid (accumulateAll props [])) as [c|]; simpl.
      * destruct IH as (Hid & Hsc & Hrs & _). split; [done|].
        split; [|split].
        -- rewrite weightedSum_snoc, decide_True by done. by rewrite Hsc.
        -- rewrite reasonsOf_snoc, decide_True by done. by rewrite Hrs.
        -- by destruct (c_reasons c).
      * destruct (weightedSum_unproposed _ _ IH) as [H0 Hr].
        split; [done|]. split; [|split].
        -- rewrite weightedSum_snoc, decide_True, H0 by done. ring.
        -- by rewrite reasonsOf_snoc, decide_True, Hr by done.
        -- done.
    + destruct (cget tid (accumulateAll props [])) as [c|].
      * destruct IH as (Hid & Hsc & Hrs & Hne'). split; [done|].
        split; [|split].
        -- rewrite weightedSum_snoc, decide_False by done.
           rewrite Hsc. ring.
        -- rewrite reasonsOf_snoc, decide_False by done.
           by rewrite app_nil_r.
        -- done.
      * apply Forall_app. split; [done|]. by repeat constructor.
Qed.

Lemma reasonsOf_app tid p1 p2 :
  reasonsOf tid (p1 ++ p2) = reasonsOf tid p1 ++ reasonsOf tid p2.
Proof. unfold reasonsOf. by rewrite filter_app, map_app. Qed.

(** A strategy that proposes a track at most once, always under the same
    label, contributes at most that label to the reasons of a track. *)
Lemma reasonsOf_strategy tid label w recs :
  NoDup (map trackId recs) → Forall (λ r, reason r = label) recs →
  reasonsOf tid (map (λ r, (r, w)) recs) = []
  ∨ reasonsOf tid (map (λ r, (r, w)) recs) = [label].
Proof.
  unfold reasonsOf. induction recs as [|r recs IH]; simpl; intros Hnd Hl.
  - by left.
  - apply NoDup_cons in Hnd as [Hnotin Hnd].
    apply Forall_cons in Hl as [Hr Hl].
    rewrite filter_cons. simpl.
    destruct (decide (trackId r = tid)) as [Heq|Hne]; [|by apply IH].
    right. simpl. rewrite Hr. f_equal.
    assert (Hnone : Forall (λ pw : Recommendation * Q, trackId pw.1 ≠ tid)
                      (map (λ r, (r, w)) recs)).
    { apply Forall_fmap, Forall_forall. intros r' Hin. simpl.
      intros Heq'. apply Hnotin. rewrite Heq, <- Heq'.
      apply list_elem_of_fmap. by exists r'. }
    apply (weightedSum_unproposed tid _ Hnone).
Qed.

(** C5, as stated, fails: a track proposed twice by one strategy gets the
    same reason twice. *)
Lemma reasons_are_repeated :
  ∃ c, getSessionRecommendations Scenario.proposedTwice [] [] = [c]
       ∧ c_reasons c = ["collaborative"; "collaborative"]
       ∧ ¬ NoDup (c_reasons c).
Proof.
  eexists. split; [reflexivity|]. split; [reflexivity|]. simpl.
  intros [Hnotin _]%NoDup_cons. apply Hnotin. apply elem_of_cons. by left.
Qed.

(** C5, amended.  For every three strategy lists the combiner gives each
    returned track the sum of [strategyScore * strategyWeight] over its
    proposals, with weights 0.4, 0.4 and 0.2; the reasons of the track are the
    reasons of its proposals in the order of the proposals, one for each
    proposal, and they are without duplicates when every strategy proposes a
    track at most once and under its own label; no track is returned twice;
    the result is in descending order of score and has at most 10 entries;
    and three empty lists give the empty result. *)
Theorem combiner_weighted_sum
    (collaborativeRecs contentRecs contextRecs : list Recommendation) :
  let props := proposals collaborativeRecs contentRecs contextRecs in
  let result :=
    getSessionRecommendations collaborativeRecs contentRecs contextRecs in
  (∀ c, c ∈ result →
     (c_score c == weightedSum (c_trackId c) props)%Q
     ∧ c_reasons c = reasonsOf (c_trackId c) props
     ∧ c_reasons c ≠ [])
  ∧ (NoDup (map trackId collaborativeRecs) →
     NoDup (map trackId contentRecs) →
     NoDup (map trackId contextRecs) →
     Forall (λ r, reason r = "collaborative") collaborativeRecs →
     Forall (λ r, reason r = "content") contentRecs →
     Forall (λ r, reason r = "contextual") contextRecs →
     ∀ c, c ∈ result → NoDup (c_reasons c))
  ∧ NoDup (map c_trackId result)
  ∧ descending c_score result
  ∧ length result ≤ 10
  ∧ getSessionRecommendations [] [] [] = [].
Proof.
  intros props result.
  pose proof (tallies_accumulateAll props) as [Hnd Htally].
  assert (Hsub : ∀ c, c ∈ result → c ∈ accumulateAll props []).
  { intros c Hc. unfold result, getSessionRecommendations, slice in Hc.
    simpl in Hc. apply (subseteq_take 10) in Hc.
    unfold combineRecommendations in Hc. apply sortDesc_elem in Hc.
    by rewrite combine_three in Hc. }
  assert (Hfacts : ∀ c, c ∈ result →
            (c_score c == weightedSum (c_trackId c) props)%Q
            ∧ c_reasons c = reasonsOf (c_trackId c) props
            ∧ c_reasons c ≠ []).
  { intros c Hc. specialize (Htally (c_trackId c)).
    rewrite (cget_elem c _ Hnd (Hsub c Hc)) in Htally. tauto. }
  split; [|split; [|split; [|split; [|split]]]].
  - exact Hfacts.
  - intros N1 N2 N3 L1 L2 L3 c Hc.
    destruct (Hfacts c Hc) as (_ & -> & _). unfold props, proposals.
    rewrite !reasonsOf_app.
    destruct (reasonsOf_strategy (c_trackId c) _ (4#10)%Q _ N1 L1) as [->| ->],
      (reasonsOf_strategy (c_trackId c) _ (4#10)%Q _ N2 L2) as [->| ->],
      (reasonsOf_strategy (c_trackId c) _ (2#10)%Q _ N3 L3) as [->| ->];
      simpl; apply (bool_decide_unpack _); vm_compute; exact I.
  - unfold result, getSessionRecommendations, slice. simpl.
    unfold combineRecommendations. rewrite combine_three.
    fold props. change (map c_trackId) with (fmap (M:=list) c_trackId).
    rewrite fmap_take. eapply sublist_NoDup; [|apply sublist_take].
    by rewrite (sortDesc_perm c_score).
  - apply descending_firstn, sortDesc_descending.
  - unfold result, getSessionRecommendations, slice. simpl.
    rewrite length_take. lia.
  - reflexivity.
Qed.

(** A track proposed by the content strategy and by the contextual strategy:
    score [1 * 0.4 + 0.5 * 0.2], two different reasons. *)
Lemma combiner_weighted_sum_witness :
  ∃ c, getSessionRecommendations [] [mkRec "track1" 1 "content"]
         [mkRec "track1" (1#2) "contextual"] = [c]
       ∧ c_reasons c = ["content"; "contextual"]
       ∧ NoDup (c_reasons c).
Proof.
  eexists. split; [reflexivity|]. split; [reflexivity|].
  refine (proj1 (proj2 (combiner_weighted_sum []
                          [mkRec "track1" 1 "content"]
                          [mkRec "track1" (1#2) "contextual"]))
            _ _ _ _ _ _ _ _).
  - constructor.
  - apply (bool_decide_unpack _). vm_compute. exact I.
  - apply (bool_decide_unpack _). vm_compute. exact I.
  - constructor.
  - repeat constructor.
  - repeat constructor.
  - apply elem_of_cons. left. reflexivity.
Defined.

End Combiner.

(* ===================================================================== *)
(** * The session store, call by call *)
(* ===================================================================== *)

Section StoreSteps.
Import Manager.

(** A session found in the store after a call was either just created by
    the call, or was in the store before and was changed by the call in one
    of four ways, or not at all. *)
Lemma run_session (c : Call) (st : State) (sid : string) (s' : Session) :
  activeSessions (run c st) !! sid = Some s' →
  (creates c = Some sid ∧ ∃ now patch, s' = fresh sid now patch)
  ∨ (creates c ≠ Some sid
     ∧ ∃ s, activeSessions st !! sid = Some s ∧ evolves s s').
Proof.
  destruct c as [now optId uuid patch|now sid0 u|now sid0 cid|now sid0
                |now sid0 r|now sid0 tid title];
    [|simpl..].
  - assert (Hk : ∃ k, creates (CreateSession now optId uuid patch) = Some k
                   ∧ run (CreateSession now optId uuid patch) st
                     = emitSessions st
                         (<[k := fresh k now patch]> (activeSessions st))
                         (userSessions st) [SESSION_CREATED k now]).
    { destruct optId as [o|]; simpl; [destruct (truthy o)|]; by eexists. }
    destruct Hk as (k & -> & ->). cbn [emitSessions activeSessions].
    destruct (decide (k = sid)) as [<-|Hne].
    + rewrite lookup_insert_eq. intros [= <-]. left. split; [done|].
      by exists now, patch.
    + rewrite lookup_insert_ne by done. intros Hs. right.
      split; [congruence|]. exists s'. split; [done|constructor].
  - unfold joinSession.
    destruct (activeSessions st !! sid0) as [s0|] eqn:E0; simpl.
    + destruct (decide (sid0 = sid)) as [->|Hne].
      * rewrite lookup_insert_eq. intros [= <-]. right. split; [done|].
        exists s0. split; [done|]. apply (ev_joined s0 now u).
      * rewrite lookup_insert_ne by done. intros Hs. right.
        split; [done|]. exists s'. split; [done|constructor].
    + intros Hs. right. split; [done|]. exists s'. split; [done|constructor].
  - unfold leaveSession.
    destruct (activeSessions st !! sid0) as [s0|] eqn:E0;
      [|intros Hs; right; split; [done|]; exists s'; split;
          [done|constructor]].
    destruct (findByConnection cid (participants s0)) as [uid|];
      [|intros Hs; right; split; [done|]; exists s'; split;
          [done|constructor]].
    destruct (truthy uid);
      [|intros Hs; right; split; [done|]; exists s'; split;
          [done|constructor]].
    cbn [participants withParticipants].
    destruct (pdelete uid (participants s0)) as [|kp rest] eqn:Ep.
    + unfold endSession. simpl. rewrite lookup_insert_eq. simpl.
      destruct (decide (sid0 = sid)) as [->|Hne].
      * by rewrite lookup_delete_eq.
      * rewrite lookup_delete_ne, lookup_insert_ne by done.
        intros Hs. right. split; [done|]. exists s'.
        split; [done|constructor].
    + simpl. destruct (decide (sid0 = sid)) as [->|Hne].
      * rewrite lookup_insert_eq. intros [= <-]. right. split; [done|].
        exists s0. split; [done|]. rewrite <- Ep. apply (ev_departed s0 uid).
      * rewrite lookup_insert_ne by done. intros Hs. right.
        split; [done|]. exists s'. split; [done|constructor].
  - unfold endSession.
    destruct (activeSessions st !! sid0) as [s0|] eqn:E0; simpl.
    + destruct (decide (sid0 = sid)) as [->|Hne].
      * by rewrite lookup_delete_eq.
      * rewrite lookup_delete_ne by done. intros Hs. right.
        split; [done|]. exists s'. split; [done|constructor].
    + intros Hs. right. split; [done|]. exists s'. split; [done|constructor].
  - unfold updateUserReaction.
    destruct (activeSessions st !! sid0) as [s0|] eqn:E0; simpl.
    + destruct (decide (sid0 = sid)) as [->|Hne].
      * rewrite lookup_insert_eq. intros [= <-]. right. split; [done|].
        exists s0. split; [done|]. apply (ev_reacted s0 now r).
      * rewrite lookup_insert_ne by done. intros Hs. right.
        split; [done|]. exists s'. split; [done|constructor].
    + intros Hs. right. split; [done|]. exists s'. split; [done|constructor].
  - unfold updateCurrentTrack.
    destruct (activeSessions st !! sid0) as [s0|] eqn:E0; simpl.
    + destruct (decide (sid0 = sid)) as [->|Hne].
      * rewrite lookup_insert_eq. intros [= <-]. right. split; [done|].
        exists s0. split; [done|]. apply (ev_track s0 now tid title).
      * rewrite lookup_insert_ne by done. intros Hs. right.
        split; [done|]. exists s'. split; [done|constructor].
    + intros Hs. right. split; [done|]. exists s'. split; [done|constructor].
Qed.

Lemma reachable_run (st : State) :
  reachable st ↔ ∃ calls, st = foldl (λ st c, run c st) initial calls.
Proof.
  split.
  - induction 1 as [|now optId uuid patch st _ [cs ->]
                    |now sid u st _ [cs ->]|now sid cid st _ [cs ->]
                    |now sid st _ [cs ->]|now sid r st _ [cs ->]
                    |now sid tid title st _ [cs ->]].
    + by exists [].
    + exists (cs ++ [CreateSession now optId uuid patch]).
      by rewrite foldl_app.
    + exists (cs ++ [JoinSession now sid u]). by rewrite foldl_app.
    + exists (cs ++ [LeaveSession now sid cid]). by rewrite foldl_app.
    + exists (cs ++ [EndSession now sid]). by rewrite foldl_app.
    + exists (cs ++ [UpdateUserReaction now sid r]). by rewrite foldl_app.
    + exists (cs ++ [UpdateCurrentTrack now sid tid title]).
      by rewrite foldl_app.
  - intros [cs ->]. induction cs as [|c cs IH] using rev_ind.
    + constructor.
    + rewrite foldl_app. simpl. destruct c; simpl; by constructor.
Qed.

(** A property of sessions that holds of a new session and is kept by the
    four changes holds of every session in every reachable store. *)
Lemma reachable_sessions (P : string → Session → Prop) :
  (∀ sid now patch, P sid (fresh sid now patch)) →
  (∀ sid s s', P sid s → evolves s s' → P sid s') →
  ∀ st, reachable st →
  ∀ sid s, activeSessions st !! sid = Some s → P sid s.
Proof.
  intros Hnew Hstep st Hreach. apply reachable_run in Hreach as [cs ->].
  induction cs as [|c cs IH] using rev_ind; intros sid s.
  - simpl. by rewrite lookup_empty.
  - rewrite foldl_app. simpl. intros Hs.
    apply run_session in Hs as [(_ & now & patch & ->)|(_ & s0 & Hs0 & Hev)].
    + apply Hnew.
    + eapply Hstep; [|exact Hev]. by apply IH.
Qed.

End StoreSteps.

(* ===================================================================== *)
(** * Invariants of the session store *)
(* ===================================================================== *)

Section StoreInvariants.
Import Manager Scenario.

Lemma pset_keys uid p ps k :
  k ∈ map fst (pset uid p ps) → k ∈ map fst ps ∨ k = uid.
Proof.
  induction ps as [|[k0 q] rest IH]; simpl.
  - intros [->|[]%elem_of_nil]%elem_of_cons. by right.
  - destruct (decide (k0 = uid)) as [->|Hne]; simpl.
    + by left.
    + intros [->|Hin]%elem_of_cons.
      * left. apply elem_of_cons. by left.
      * destruct (IH Hin) as [?|?]; [left|by right].
        apply elem_of_cons. by right.
Qed.

Lemma pset_NoDup uid p ps :
  NoDup (map fst ps) → NoDup (map fst (pset uid p ps)).
Proof.
  induction ps as [|[k q] rest IH]; simpl; intros Hnd.
  - apply NoDup_singleton.
  - apply NoDup_cons in Hnd as [Hnotin Hnd].
    destruct (decide (k = uid)) as [->|Hne]; simpl.
    + by apply NoDup_cons.
    + apply NoDup_cons. split; [|by apply IH].
      intros Hin. by destruct (pset_keys _ _ _ _ Hin).
Qed.

Lemma pset_Forall (P : string * Participant → Prop) uid p ps :
  P (uid, p) → Forall P ps → Forall P (pset uid p ps).
Proof.
  intros Hp. induction 1 as [|[k q] rest Hx Hrest IH]; simpl.
  - by repeat constructor.
  - destruct (decide (k = uid)) as [->|Hne]; by constructor.
Qed.

Lemma pdelete_NoDup uid ps :
  NoDup (map fst ps) → NoDup (map fst (pdelete uid ps)).
Proof.
  intros Hnd. eapply sublist_NoDup; [exact Hnd|].
  apply (fmap_sublist fst), sublist_filter.
Qed.

Lemma recordForParticipant_keys now r ps :
  map fst (recordForParticipant now r ps) = map fst ps
  ∧ map (λ kp, p_userId kp.2) (recordForParticipant now r ps)
    = map (λ kp, p_userId kp.2) ps.
Proof.
  induction ps as [|[k q] rest [IH1 IH2]]; simpl; [done|].
  destruct (decide (p_profileId q = profileId r)); simpl; [done|].
  by rewrite IH1, IH2.
Qed.

Lemma recordForParticipant_own now r ps :
  Forall (λ kp, p_userId kp.2 = kp.1) ps →
  Forall (λ kp, p_userId kp.2 = kp.1) (recordForParticipant now r ps).
Proof.
  induction 1 as [|[k q] rest Hx Hrest IH]; simpl; [constructor|].
  destruct (decide (p_profileId q = profileId r)); by constructor.
Qed.

Lemma evolves_keyed sid s s' : keyed sid s → evolves s s' → keyed sid s'.
Proof.
  intros (Hid & Hnd & Hown) Hev. destruct Hev; unfold keyed; simpl.
  - done.
  - split; [done|]. split; [by apply pset_NoDup|]. by apply pset_Forall.
  - split; [done|]. split; [by apply pdelete_NoDup|].
    by apply pdelete_Forall.
  - split; [done|].
    rewrite (proj1 (recordForParticipant_keys _ _ _)).
    split; [done|]. by apply recordForParticipant_own.
  - done.
Qed.

(** X1.  In every store that calls of the public methods can reach, a
    session is stored under its own id, the keys of its participants are
    distinct, and every participant is stored under its own user id. *)
Theorem reachable_keyed (st : State) (sid : string) (s : Session) :
  reachable st → activeSessions st !! sid = Some s → keyed sid s.
Proof.
  intros Hreach. revert sid s.
  apply (reachable_sessions keyed); [|exact evolves_keyed|exact Hreach].
  intros sid0 now patch. repeat split; simpl; constructor.
Qed.

Lemma reachable_keyed_witness :
  keyed "s1" (mkSession "s1" 0
                [("u1", mkParticipant "u1" "p1" "c1" 7 [] 0%R 0)]
                None [] [] (mkMetrics 0 0 0 0 0%R) (mkSettings true 3 10)).
Proof.
  apply (reachable_keyed oneUser "s1").
  - apply reach_join, reach_create, reach_initial.
  - reflexivity.
Defined.

Lemma count_snoc {A} (P : A → Prop) `{∀ x, Decision (P x)} (l : list A)
    (x : A) :
  length (filter P (l ++ [x]))
  = length (filter P l) + if decide (P x) then 1 else 0.
Proof.
  rewrite filter_app, length_app, filter_cons, filter_nil.
  by destruct (decide (P x)).
Qed.

Lemma evolves_countersMatch s s' :
  countersMatch s → evolves s s' → countersMatch s'.
Proof.
  intros [Hp Hn] Hev. destruct Hev as [| | |now r|]; try done.
  unfold countersMatch, reacted, updateSessionMetrics.
  cbn [metrics reactions positiveReactions negativeReactions].
  rewrite !count_snoc, !Nat2Z.inj_add, <- Hp, <- Hn.
  destruct (isPositive r), (isNegative r);
    repeat case_decide; simpl; try lia; intuition done.
Qed.

(** X2.  In every reachable store the counters kept in
    [session.metrics] agree with the reaction list of the session:
    [positiveReactions] is the number of positive reactions and
    [negativeReactions] the number of reactions that are negative and not
    positive.  The metrics computed by [calculateSessionMetrics] report the
    same positive count, and a negative count that is larger by the number
    of reactions that are both positive and negative. *)
Theorem reachable_counters (st : State) (sid : string) (s : Session)
    (now : Z) :
  reachable st → activeSessions st !! sid = Some s →
  countersMatch s
  ∧ Z.of_nat (sm_positiveReactions (calculateSessionMetrics now s))
    = positiveReactions (metrics s)
  ∧ Z.of_nat (sm_negativeReactions (calculateSessionMetrics now s))
    = (negativeReactions (metrics s)
       + Z.of_nat (length (filter (λ r, isPositive r = true
                                        ∧ isNegative r = true)
                             (reactions s))))%Z.
Proof.
  intros Hreach Hs.
  assert (Hc : countersMatch s).
  { revert sid s Hs.
    apply (reachable_sessions (λ _, countersMatch));
      [|intros ?; exact evolves_countersMatch|exact Hreach].
    intros sid0 t patch. by split. }
  split; [done|]. destruct Hc as [Hp Hn]. simpl. split; [by rewrite Hp|].
  rewrite Hn, <- Nat2Z.inj_add. f_equal. clear.
  induction (reactions s) as [|r rs IH]; [done|].
  rewrite !filter_cons.
  destruct (isPositive r), (isNegative r); simpl in *;
    repeat case_decide; simpl; try lia; tauto || (exfalso; intuition done).
Qed.

Lemma reachable_counters_witness :
  positiveReactions
    (metrics (reacted 9 (mkReaction "track1" "like" (Some 1%Z) "p1" 9)
                (joined 7 (mkUserInfo "u1" "p1" "c1")
                   (fresh "s1" 0 (mkPatch None None None))))) = 1%Z
  ∧ sm_negativeReactions
      (calculateSessionMetrics 10
         (reacted 9 (mkReaction "track1" "like" (Some 1%Z) "p1" 9)
            (joined 7 (mkUserInfo "u1" "p1" "c1")
               (fresh "s1" 0 (mkPatch None None None))))) = 1
  ∧ negativeReactions
      (metrics (reacted 9 (mkReaction "track1" "like" (Some 1%Z) "p1" 9)
                  (joined 7 (mkUserInfo "u1" "p1" "c1")
                     (fresh "s1" 0 (mkPatch None None None))))) = 0%Z.
Proof.
  destruct (reachable_counters
              (updateUserReaction 9 "s1"
                 (mkReaction "track1" "like" (Some 1%Z) "p1" 9) oneUser)
              "s1"
              (reacted 9 (mkReaction "track1" "like" (Some 1%Z) "p1" 9)
                 (joined 7 (mkUserInfo "u1" "p1" "c1")
                    (fresh "s1" 0 (mkPatch None None None))))
              10) as ([Hp Hn] & _ & _).
  - apply reach_reaction, reach_join, reach_create, reach_initial.
  - reflexivity.
  - rewrite Hp, Hn. repeat split.
Defined.

End StoreInvariants.

(* ===================================================================== *)
(** * Ending sessions, history, and reactions of participants *)
(* ===================================================================== *)

Section StoreOperations.
Import Manager Scenario.

Lemma lookup_foldr_delete (ps : list (string * Participant))
    (users : gmap string string) (u : string) :
  foldr (λ kp us, delete (p_userId kp.2) us) users ps !! u
  = if decide (u ∈ map (λ kp, p_userId kp.2) ps) then None else users !! u.
Proof.
  induction ps as [|[k q] rest IH].
  - change (users !! u
            = if decide (u ∈ @nil string) then None else users !! u).
    destruct (decide (u ∈ @nil string)) as [Hin|]; [|done].
    by apply elem_of_nil in Hin.
  - change (delete (p_userId q)
              (foldr (λ kp us, delete (p_userId kp.2) us) users rest) !! u
            = if decide (u ∈ p_userId q :: map (λ kp, p_userId kp.2) rest)
              then None else users !! u).
    destruct (decide (p_userId q = u)) as [->|Hne].
    + rewrite lookup_delete_eq.
      destruct (decide (u ∈ u :: map (λ kp, p_userId kp.2) rest))
        as [|Hout]; [done|].
      exfalso. apply Hout, elem_of_cons. by left.
    + rewrite lookup_delete_ne, IH by done.
      destruct (decide (u ∈ map (λ kp, p_userId kp.2) rest)) as [Hin|Hout];
        destruct (decide (u ∈ p_userId q :: map (λ kp, p_userId kp.2) rest))
        as [Hin'|Hout']; try done.
      * exfalso. apply Hout', elem_of_cons. by right.
      * apply elem_of_cons in Hin' as [?|?]; [congruence|done].
Qed.

(** X3.  [endSession] removes the session from the store and leaves the
    other sessions alone; a second [endSession], or one on an id that is not
    in the store, changes nothing and publishes nothing. *)
Theorem endSession_once (now1 now2 : Z) (sid : string) (st : State) :
  activeSessions (endSession now1 sid st) !! sid = None
  ∧ (∀ k, k ≠ sid →
       activeSessions (endSession now1 sid st) !! k = activeSessions st !! k)
  ∧ endSession now2 sid (endSession now1 sid st) = endSession now1 sid st
  ∧ (activeSessions st !! sid = None → endSession now1 sid st = st).
Proof.
  split; [apply endSession_removes|]. split; [|split].
  - intros k Hk. unfold endSession.
    destruct (activeSessions st !! sid); [|done]. simpl.
    by apply lookup_delete_ne.
  - apply endSession_absent, endSession_removes.
  - apply endSession_absent.
Qed.

Lemma endSession_once_witness :
  endSession 9 "s1" initial = initial.
Proof.
  apply (proj2 (proj2 (proj2 (endSession_once 9 9 "s1" initial)))).
  reflexivity.
Defined.

(** X4.  When [endSession] ends a session it deletes the entry of
    the user index of each of its participants, whatever session that entry
    names, keeps the entries of all other users, and publishes one
    [SESSION_ENDED] event that carries the metrics of the session. *)
Theorem endSession_clears_index (now : Z) (sid : string) (st : State)
    (s : Session) :
  activeSessions st !! sid = Some s →
  (∀ kp, kp ∈ participants s →
     userSessions (endSession now sid st) !! p_userId kp.2 = None)
  ∧ (∀ u, u ∉ map (λ kp, p_userId kp.2) (participants s) →
       userSessions (endSession now sid st) !! u = userSessions st !! u)
  ∧ sessionEvents (endSession now sid st)
    = sessionEvents st
      ++ [SESSION_ENDED sid now (calculateSessionMetrics now s)].
Proof.
  intros Hs. unfold endSession. rewrite Hs. simpl. split; [|split].
  - intros kp Hin. rewrite lookup_foldr_delete, decide_True; [done|].
    apply list_elem_of_fmap. by exists kp.
  - intros u Hu. by rewrite lookup_foldr_delete, decide_False.
  - done.
Qed.

Lemma endSession_clears_index_witness :
  userSessions (endSession 9 "s1" oneUser) !! "u1" = None.
Proof.
  refine (proj1 (endSession_clears_index 9 "s1" oneUser
                   (joined 7 (mkUserInfo "u1" "p1" "c1")
                      (fresh "s1" 0 (mkPatch None None None))) eq_refl)
            ("u1", mkParticipant "u1" "p1" "c1" 7 [] 0%R 0) _).
  apply elem_of_cons. by left.
Defined.

Lemma evolves_history s s' :
  evolves s s' →
  reactions s `prefix_of` reactions s'
  ∧ id s' = id s ∧ createdAt s' = createdAt s ∧ settings s' = settings s
  ∧ playlist s' = playlist s.
Proof.
  destruct 1; simpl; repeat split; try done.
  by apply prefix_app_r.
Qed.

(** X5.  No call other than a [createSession] that stores a session
    under the same id changes what a session has recorded: if the session
    is in the store before and after the call, its reaction list after the
    call starts with its reaction list before, and its id, creation time and
    settings are the same.  A [createSession] under the id of a stored
    session replaces it by a session without reactions and participants. *)
Theorem history_is_append_only (c : Call) (st : State) (sid : string)
    (s s' : Session) :
  activeSessions st !! sid = Some s →
  activeSessions (run c st) !! sid = Some s' →
  (creates c ≠ Some sid →
   reactions s `prefix_of` reactions s'
   ∧ id s' = id s ∧ createdAt s' = createdAt s ∧ settings s' = settings s)
  ∧ (creates c = Some sid → reactions s' = [] ∧ participants s' = []).
Proof.
  intros Hs Hs'.
  apply run_session in Hs' as [(Hc & now & patch & ->)|(Hc & s0 & Hs0 & Hev)].
  - split; [done|]. by intros _.
  - split; [|done]. intros _. rewrite Hs in Hs0. injection Hs0 as <-.
    destruct (evolves_history _ _ Hev) as (? & ? & ? & ? & ?). done.
Qed.

Lemma history_is_append_only_witness :
  [] `prefix_of` [mkReaction "track1" "like" None "p1" 9]
  ∧ reactions (fresh "s1" 11 (mkPatch None None None)) = [].
Proof.
  split.
  - refine (proj1 (proj1 (history_is_append_only
                     (UpdateUserReaction 9 "s1"
                        (mkReaction "track1" "like" None "p1" 9))
                     oneUser "s1"
                     (joined 7 (mkUserInfo "u1" "p1" "c1")
                        (fresh "s1" 0 (mkPatch None None None)))
                     (reacted 9 (mkReaction "track1" "like" None "p1" 9)
                        (joined 7 (mkUserInfo "u1" "p1" "c1")
                           (fresh "s1" 0 (mkPatch None None None))))
                     eq_refl eq_refl) _)).
    discriminate.
  - refine (proj1 (proj2 (history_is_append_only
                     (CreateSession 11 (Some "s1") "x"
                        (mkPatch None None None))
                     oneUser "s1"
                     (joined 7 (mkUserInfo "u1" "p1" "c1")
                        (fresh "s1" 0 (mkPatch None None None)))
                     (fresh "s1" 11 (mkPatch None None None))
                     eq_refl eq_refl) _)).
    reflexivity.
Defined.

Lemma recordForParticipant_first now r l1 k q l2 :
  Forall (λ kp, p_profileId kp.2 ≠ profileId r) l1 →
  p_profileId q = profileId r →
  recordForParticipant now r (l1 ++ (k, q) :: l2)
  = l1 ++ (k, mkParticipant (p_userId q) (p_profileId q) (p_connectionId q)
                (p_joinedAt q) (p_reactions q ++ [r])
                (calculateEngagement now (p_reactions q ++ [r]))
                (p_totalListeningTime q)) :: l2.
Proof.
  intros Hl1 Hq. induction Hl1 as [|[k0 q0] l1 Hx Hl1 IH]; simpl.
  - by rewrite decide_True.
  - simpl in Hx. rewrite decide_False by done. by rewrite IH.
Qed.

(** X6.  A reaction recorded on a session in which some participant has
    the profile of the reaction goes to the first such participant and to no
    other: that participant gets the reaction at the end of its own list and
    an engagement recomputed from the extended list; the participants before
    and after it, also later ones with the same profile, are unchanged. *)
Theorem reaction_of_participant (now : Z) (sid : string) (r : ReactionData)
    (st : State) (s : Session) (l1 l2 : list (string * Participant))
    (k : string) (q : Participant) :
  activeSessions st !! sid = Some s →
  participants s = l1 ++ (k, q) :: l2 →
  Forall (λ kp, p_profileId kp.2 ≠ profileId r) l1 →
  p_profileId q = profileId r →
  ∃ s', activeSessions (updateUserReaction now sid r st) !! sid = Some s'
    ∧ participants s'
      = l1 ++ (k, mkParticipant (p_userId q) (p_profileId q)
                    (p_connectionId q) (p_joinedAt q) (p_reactions q ++ [r])
                    (calculateEngagement now (p_reactions q ++ [r]))
                    (p_totalListeningTime q)) :: l2
    ∧ reactions s' = reactions s ++ [r]
    ∧ averageEngagement (metrics s') = meanEngagement (participants s').
Proof.
  intros Hs Hps Hl1 Hq. unfold updateUserReaction. rewrite Hs. simpl.
  eexists. split; [apply lookup_insert_eq|]. simpl.
  rewrite Hps, (recordForParticipant_first now r l1 k q l2 Hl1 Hq). done.
Qed.

Lemma reaction_of_participant_witness :
  ∃ s', activeSessions
          (updateUserReaction 9 "s1" (mkReaction "track1" "like" None "p1" 9)
             oneUser) !! "s1" = Some s'
    ∧ map (λ kp, p_reactions kp.2) (participants s')
      = [[mkReaction "track1" "like" None "p1" 9]].
Proof.
  destruct (reaction_of_participant 9 "s1"
              (mkReaction "track1" "like" None "p1" 9) oneUser
              (joined 7 (mkUserInfo "u1" "p1" "c1")
                 (fresh "s1" 0 (mkPatch None None None)))
              [] [] "u1" (mkParticipant "u1" "p1" "c1" 7 [] 0%R 0)
              eq_refl eq_refl (List.Forall_nil _) eq_refl)
    as (s' & Hs' & Hps & _).
  exists s'. split; [exact Hs'|]. by rewrite Hps.
Defined.

End StoreOperations.

(* ===================================================================== *)
(** * Joining, leaving and the user index *)
(* ===================================================================== *)

Section JoinLeave.
Import Manager Scenario.

Lemma existsb_pset (f : string * Participant → bool) uid p ps :
  f (uid, p) = true → existsb f (pset uid p ps) = true.
Proof.
  intros Hf. induction ps as [|[k q] rest IH]; simpl.
  - by rewrite Hf.
  - destruct (decide (k = uid)) as [->|Hne]; simpl.
    + by rewrite Hf.
    + rewrite IH. apply orb_true_r.
Qed.

(** X7.  After a successful [joinSession] the queries agree
    with it: [getSession] and, when the session id is not the empty string,
    [getUserSession] of the user return the session that the call returned,
    and [isProfileInSession] holds of the profile. *)
Theorem join_then_query (now : Z) (sid : string) (u : UserInfo) (st : State)
    (s : Session) :
  activeSessions st !! sid = Some s →
  (joinSession now sid u st).1 = inr (joined now u s)
  ∧ getSession sid (joinSession now sid u st).2 = Some (joined now u s)
  ∧ (truthy sid = true →
     getUserSession (userId u) (joinSession now sid u st).2
     = Some (joined now u s))
  ∧ isProfileInSession sid (ui_profileId u) (joinSession now sid u st).2
    = true.
Proof.
  intros Hs. unfold joinSession, getSession, getUserSession,
    isProfileInSession. rewrite Hs. simpl.
  rewrite !lookup_insert_eq. split; [done|]. split; [done|]. split.
  - by intros ->.
  - simpl. apply existsb_pset. simpl. by apply bool_decide_eq_true.
Qed.

Lemma join_then_query_witness :
  getUserSession "u1" oneUser
  = Some (joined 7 (mkUserInfo "u1" "p1" "c1")
            (fresh "s1" 0 (mkPatch None None None)))
  ∧ isProfileInSession "s1" "p1" oneUser = true.
Proof.
  destruct (join_then_query 7 "s1" (mkUserInfo "u1" "p1" "c1") justCreated
              (fresh "s1" 0 (mkPatch None None None)) eq_refl)
    as (_ & _ & Huser & Hprofile).
  split; [by apply Huser | exact Hprofile].
Defined.

Lemma findByConnection_pset cid uid p ps :
  p_connectionId p = cid →
  Forall (λ kp, kp.1 ≠ uid → p_connectionId kp.2 ≠ cid) ps →
  findByConnection cid (pset uid p ps) = Some uid.
Proof.
  intros Hp. induction 1 as [|[k q] rest Hx Hrest IH]; simpl.
  - by rewrite decide_True.
  - destruct (decide (k = uid)) as [->|Hne]; simpl.
    + by rewrite decide_True.
    + rewrite decide_False; [done|]. by apply Hx.
Qed.











Lemma lengths_pset uid p ps :
  uid ∉ map fst ps → length (pset uid p ps) = S (length ps).
Proof.
  induction ps as [|[k q] rest IH]; simpl; intros Hnotin; [done|].
  apply not_elem_of_cons in Hnotin as [Hne Hnotin].
  rewrite decide_False by done. simpl. by rewrite IH.
Qed.

(** X10.  [joinSession] does not look at [settings.maxParticipants]:
    a user who is not yet a participant joins whatever the number of
    participants, which then exceeds the setting if it had reached it. *)
Theorem join_ignores_maxParticipants (now : Z) (sid : string) (u : UserInfo)
    (st : State) (s : Session) :
  activeSessions st !! sid = Some s →
  userId u ∉ map fst (participants s) →
  ∃ s', (joinSession now sid u st).1 = inr s'
    ∧ activeSessions (joinSession now sid u st).2 !! sid = Some s'
    ∧ length (participants s') = S (length (participants s))
    ∧ settings s' = settings s
    ∧ ((maxParticipants (settings s) ≤ Z.of_nat (length (participants s)))%Z →
       (maxParticipants (settings s') < Z.of_nat (length (participants s')))%Z).
Proof.
  intros Hs Hnew. unfold joinSession. rewrite Hs. simpl.
  eexists. split; [reflexivity|]. split; [apply lookup_insert_eq|].
  simpl. rewrite lengths_pset by done. repeat split. lia.
Qed.

Lemma join_ignores_maxParticipants_witness :
  ∃ s', (joinSession 2 "s1" (mkUserInfo "u2" "p2" "c2") fullSession).1
        = inr s'
    ∧ length (participants s') = 2
    ∧ maxParticipants (settings s') = 1%Z.
Proof.
  destruct (join_ignores_maxParticipants 2 "s1" (mkUserInfo "u2" "p2" "c2")
              fullSession
              (joined 1 (mkUserInfo "u1" "p1" "c1")
                 (fresh "s1" 0 (mkPatch None None (Some 1%Z)))) eq_refl)
    as (s' & Hret & _ & Hlen & Hset & _).
  - simpl. intros [H|H]%elem_of_cons; [discriminate|].
    by apply elem_of_nil in H.
  - exists s'. rewrite Hlen, Hset. by repeat split.
Defined.

(** X11.  [leaveSession] removes the participant it has found only if
    the user id is truthy.  A user who joined with the empty string as user
    id over a connection that no other participant uses is found by that
    connection but never removed: the store after [leaveSession] is the
    store before it. *)
Theorem empty_user_id_cannot_leave (now1 now2 : Z) (sid profile cid : string)
    (st : State) (s : Session) :
  activeSessions st !! sid = Some s →
  Forall (λ kp, kp.1 ≠ "" → p_connectionId kp.2 ≠ cid) (participants s) →
  leaveSession now2 sid cid
    (joinSession now1 sid (mkUserInfo "" profile cid) st).2
  = (joinSession now1 sid (mkUserInfo "" profile cid) st).2
  ∧ ∃ s', activeSessions
            (joinSession now1 sid (mkUserInfo "" profile cid) st).2 !! sid
          = Some s'
      ∧ findByConnection cid (participants s') = Some ""
      ∧ pget "" (participants s')
        = Some (mkParticipant "" profile cid now1 [] 0%R 0).
Proof.
  intros Hs Hfree.
  assert (Hj : activeSessions
                 (joinSession now1 sid (mkUserInfo "" profile cid) st).2
                 !! sid
               = Some (joined now1 (mkUserInfo "" profile cid) s)).
  { unfold joinSession. rewrite Hs. simpl. apply lookup_insert_eq. }
  assert (Hf : findByConnection cid
                 (participants (joined now1 (mkUserInfo "" profile cid) s))
               = Some "").
  { simpl. by apply findByConnection_pset. }
  split.
  - unfold leaveSession at 1. by rewrite Hj, Hf.
  - eexists. split; [exact Hj|]. split; [exact Hf|]. simpl.
    apply pget_pset_eq.
Qed.

Lemma empty_user_id_cannot_leave_witness :
  leaveSession 9 "s1" "c1"
    (joinSession 7 "s1" (mkUserInfo "" "p1" "c1") justCreated).2
  = (joinSession 7 "s1" (mkUserInfo "" "p1" "c1") justCreated).2.
Proof.
  refine (proj1 (empty_user_id_cannot_leave 7 9 "s1" "p1" "c1" justCreated
                   (fresh "s1" 0 (mkPatch None None None)) eq_refl _)).
  constructor.
Defined.

(** X12.  [createSession] with the id of a stored session replaces
    that session by a new one without participants, and does not touch the
    user index: a user whom the index maps to that id is still mapped to
    it, so that [getUserSession] returns for that user the new session, of
    which the user is no participant. *)
Theorem recreate_keeps_stale_index (now : Z) (sid uuid uid : string)
    (patch : SettingsPatch) (st : State) :
  truthy sid = true →
  userSessions st !! uid = Some sid →
  (createSession now (Some sid) uuid patch st).1 = fresh sid now patch
  ∧ userSessions (createSession now (Some sid) uuid patch st).2
    = userSessions st
  ∧ getUserSession uid (createSession now (Some sid) uuid patch st).2
    = Some (fresh sid now patch)
  ∧ pget uid (participants (fresh sid now patch)) = None.
Proof.
  intros Ht Hu. unfold createSession, getUserSession. rewrite Ht. simpl.
  rewrite Hu, Ht, lookup_insert_eq. done.
Qed.

Lemma recreate_keeps_stale_index_witness :
  getUserSession "u1"
    (createSession 11 (Some "s1") "x" (mkPatch None None None) oneUser).2
  = Some (fresh "s1" 11 (mkPatch None None None)).
Proof.
  exact (proj1 (proj2 (proj2 (recreate_keeps_stale_index 11 "s1" "x" "u1"
                                (mkPatch None None None) oneUser
                                eq_refl eq_refl)))).
Defined.

End JoinLeave.

(* ===================================================================== *)
(** * Bounds on engagement and on the computed metrics *)
(* ===================================================================== *)

Section MetricsBounds.
Import Manager.
Local Open Scope R_scope.

Lemma sum_within (lo hi : R) (xs : list R) :
  Forall (λ x, lo <= x <= hi) xs →
  lo * INR (length xs) <= fold_right Rplus 0 xs <= hi * INR (length xs).
Proof.
  induction 1 as [|x xs Hx Hxs IH].
  - simpl. lra.
  - change (length (x :: xs)) with (S (length xs)). rewrite S_INR.
    simpl. lra.
Qed.

(** The mean of a non-empty list lies between any bounds of its elements. *)
Lemma mean_within (lo hi : R) (xs : list R) :
  xs ≠ [] → Forall (λ x, lo <= x <= hi) xs →
  lo <= Rsum xs / INR (length xs) <= hi.
Proof.
  intros Hne Hall. rewrite Rsum_fold_right.
  pose proof (sum_within lo hi xs Hall) as Hsum.
  assert (Hn : 0 < INR (length xs)).
  { apply lt_0_INR. destruct xs; [done|simpl; lia]. }
  assert (Hdiv : fold_right Rplus 0 xs / INR (length xs) * INR (length xs)
                 = fold_right Rplus 0 xs) by (field; lra).
  split; apply Rmult_le_reg_r with (INR (length xs)); try done; lra.
Qed.

Lemma exp_nonpos (x : R) : x <= 0 → 0 < exp x <= 1.
Proof.
  intros Hx. split; [apply exp_pos|].
  destruct (Req_dec x 0) as [->|Hne]; [rewrite exp_0; lra|].
  rewrite <- exp_0. left. apply exp_increasing. lra.
Qed.

Lemma weightedScore_within (now : Z) (r : ReactionData) :
  validIntensity r → (timestamp r ≤ now)%Z →
  0 < weightedScore now r <= 5.
Proof.
  intros Hv Ht. unfold weightedScore, ageWeight.
  rewrite (intensityScore_valid r Hv).
  assert (Hage : - IZR (now - timestamp r) / (5 * 60 * 1000) <= 0).
  { assert (0 <= IZR (now - timestamp r)) by (apply IZR_le; lia).
    unfold Rdiv. nra. }
  pose proof (exp_nonpos _ Hage) as [He0 He1].
  assert (Hi : 1 <= IZR (default 3%Z (intensity r)) <= 5).
  { unfold validIntensity in Hv. destruct (intensity r) as [k|]; simpl.
    - split; apply IZR_le; lia.
    - lra. }
  nra.
Qed.

(** X13.  For reactions of the data model (an intensity, when
    present, from 1 to 5) none of which is later than the time of the
    evaluation, the engagement lies between 0 and 5, and is positive when
    there is a reaction; the average engagement of a session whose
    participants have engagement in that range is in that range too. *)
Theorem engagement_within_range (now : Z) (rs : list ReactionData)
    (ps : list (string * Participant)) :
  Forall validIntensity rs →
  Forall (λ r, (timestamp r ≤ now)%Z) rs →
  0 <= calculateEngagement now rs <= 5
  ∧ (rs ≠ [] → 0 < calculateEngagement now rs)
  ∧ (Forall (λ kp, 0 <= p_currentEngagement kp.2 <= 5) ps →
     0 <= meanEngagement ps <= 5).
Proof.
  intros Hv Ht.
  assert (Hall : Forall (λ x, 0 < x <= 5) (map (weightedScore now) rs)).
  { apply Forall_fmap, Forall_forall. intros r Hr. simpl.
    apply weightedScore_within.
    - by apply (proj1 (list.Forall_forall _ _) Hv).
    - by apply (proj1 (list.Forall_forall _ _) Ht). }
  split; [|split].
  - unfold calculateEngagement. destruct rs as [|r0 rest]; [lra|].
    rewrite <- (length_map (weightedScore now) (r0 :: rest)).
    apply mean_within; [done|].
    eapply Forall_impl; [exact Hall|]. simpl. intros; lra.
  - intros Hne. unfold calculateEngagement.
    destruct rs as [|r0 rest]; [done|].
    assert (Hm : weightedScore now r0
                 <= Rsum (map (weightedScore now) (r0 :: rest))).
    { rewrite Rsum_fold_right. simpl.
      apply Forall_cons in Hall as [_ Hrest].
      pose proof (sum_within 0 5 (map (weightedScore now) rest)) as Hs.
      assert (Forall (λ x, 0 <= x <= 5) (map (weightedScore now) rest)).
      { eapply Forall_impl; [exact Hrest|]. simpl. intros; lra. }
      specialize (Hs H). lra. }
    apply Forall_cons in Hall as [[H0 _] _].
    apply Rdiv_lt_0_compat; [lra|].
    apply lt_0_INR. simpl. lia.
  - intros Hps. unfold meanEngagement.
    destruct (participantEngagements ps) as [|e es] eqn:Ees; [lra|].
    apply mean_within; [done|]. rewrite <- Ees.
    unfold participantEngagements. by apply Forall_fmap.
Qed.

Lemma engagement_within_range_witness :
  0 <= calculateEngagement 9 [mkReaction "t" "like" (Some 5%Z) "p" 2] <= 5.
Proof.
  refine (proj1 (engagement_within_range 9
                   [mkReaction "t" "like" (Some 5%Z) "p" 2] [] _ _)).
  - repeat constructor; simpl; lia.
  - repeat constructor. simpl. lia.
Defined.

Lemma lastActivity_max (ts : list Z) (a : Z) :
  (a ≤ fold_left Z.max ts a)%Z
  ∧ Forall (λ t, (t ≤ fold_left Z.max ts a)%Z) ts.
Proof.
  revert a. induction ts as [|t ts IH]; intros a; simpl.
  - split; [lia|constructor].
  - destruct (IH (Z.max a t)) as [H1 H2]. split; [lia|].
    constructor; [lia|done].
Qed.

(** X14.  In the object that [calculateSessionMetrics] builds the
    positivity ratio lies between 0 and 1, the positive and the negative
    count are at most the total count, the total is the length of the
    reaction list, and [lastActivity] is the creation time when there is no
    reaction and otherwise a timestamp of a reaction that no reaction
    exceeds. *)
Theorem session_metrics_bounds (now : Z) (s : Session) :
  0 <= sm_positivityRatio (calculateSessionMetrics now s) <= 1
  ∧ (sm_positiveReactions (calculateSessionMetrics now s)
     ≤ sm_totalReactions (calculateSessionMetrics now s))%nat
  ∧ (sm_negativeReactions (calculateSessionMetrics now s)
     ≤ sm_totalReactions (calculateSessionMetrics now s))%nat
  ∧ sm_totalReactions (calculateSessionMetrics now s) = length (reactions s)
  ∧ Forall (λ r, (timestamp r
                  ≤ sm_lastActivity (calculateSessionMetrics now s))%Z)
      (reactions s)
  ∧ match reactions s with
    | [] => sm_lastActivity (calculateSessionMetrics now s) = createdAt s
    | _ => sm_lastActivity (calculateSessionMetrics now s)
           ∈ map timestamp (reactions s)
    end.
Proof.
  simpl.
  pose proof (length_filter (λ r, isPositive r = true) (reactions s)) as Hp.
  pose proof (length_filter (λ r, isNegative r = true) (reactions s)) as Hn.
  split; [|split; [done|split; [done|split; [done|split]]]].
  - destruct (reactions s) as [|r rest] eqn:Er; [lra|].
    rewrite <- Er in *.
    assert (Hlen : 0 < INR (length (reactions s))).
    { apply lt_0_INR. rewrite Er. simpl. lia. }
    apply le_INR in Hp.
    pose proof (pos_INR (length (filter (λ r, isPositive r = true)
                                   (reactions s)))) as H0.
    split.
    + apply Rmult_le_reg_r with (INR (length (reactions s))); [done|].
      unfold Rdiv. rewrite Rmult_assoc, Rinv_l by lra. lra.
    + apply Rmult_le_reg_r with (INR (length (reactions s))); [done|].
      unfold Rdiv. rewrite Rmult_assoc, Rinv_l by lra. lra.
  - destruct (reactions s) as [|r rest]; [constructor|].
    destruct (lastActivity_max (map timestamp rest) (timestamp r)) as [H1 H2].
    constructor; [done|]. apply list.Forall_forall. intros x Hx.
    apply (proj1 (list.Forall_forall _ _) H2).
    apply list_elem_of_fmap. by exists x.
  - destruct (reactions s) as [|r rest]; [done|].
    clear. simpl map. generalize (timestamp r) (map timestamp rest).
    intros a ts. revert a. induction ts as [|t ts IH]; intros a; simpl.
    + apply elem_of_cons. by left.
    + destruct (Z.max_spec a t) as [[_ ->]|[_ ->]].
      * specialize (IH t). apply elem_of_cons in IH as [->|Hin].
        -- apply elem_of_cons. right. apply elem_of_cons. by left.
        -- apply elem_of_cons. right. apply elem_of_cons. by right.
      * specialize (IH a). apply elem_of_cons in IH as [->|Hin].
        -- apply elem_of_cons. by left.
        -- apply elem_of_cons. right. apply elem_of_cons. by right.
Qed.

End MetricsBounds.

(* ===================================================================== *)
(** * The HTTP routes for joining and leaving *)
(* ===================================================================== *)

Section Routes.
Import Manager Server.

Lemma httpConnection_inj (a b : string) :
  httpConnection a = httpConnection b → a = b.
Proof. unfold httpConnection. intros H. cbn in H. by injection H. Qed.

Lemma postJoin_state now sid userId profileId K m :
  (postJoin now sid userId profileId K m).2
  = (joinSession now sid
       (mkUserInfo userId profileId (httpConnection (pretty now))) m).2.
Proof.
  unfold postJoin.
  destruct (joinSession _ _ _ _) as [[e|session] m']; [done|].
  by destruct (Engine.getSessionRecommendationsOf _ _ _).
Qed.


(** X15.  [getSessionRecommendations(sessionId, profileId)] throws
    exactly when a non-empty profile id is given for which
    [userPreferences$] has no entry (the content-based strategy then iterates
    over [undefined]); in every other case it returns at most 10
    recommendations. *)
Theorem recommendations_throw_for_unknown_profile (K : Engine.Knowledge)
    (sid : string) (profileId : option string) :
  (Engine.getSessionRecommendationsOf K sid profileId = inl Engine.TypeError
   ↔ ∃ p, profileId = Some p ∧ truthy p = true
          ∧ Engine.k_preferences K p = None)
  ∧ ∀ recs, Engine.getSessionRecommendationsOf K sid profileId = inr recs →
            length recs ≤ 10.
Proof.
  unfold Engine.getSessionRecommendationsOf. split.
  - destruct profileId as [p|]; simpl.
    + destruct (truthy p) eqn:Et.
      * destruct (Engine.k_preferences K p) eqn:Ep.
        -- split; [done|]. intros (p' & [= <-] & _ & Hn). congruence.
        -- split; [|done]. intros _. by exists p.
      * split; [done|]. intros (p' & [= <-] & Ht & _). congruence.
    + split; [done|]. by intros (p' & [=] & _).
  - intros recs Hrecs.
    destruct (match profileId with
              | Some p => if truthy p then Engine.k_preferences K p
                          else Some []
              | None => Some []
              end); [|done].
    injection Hrecs as <-.
    unfold Engine.getSessionRecommendations, Engine.slice. simpl.
    rewrite length_take. lia.
Qed.

Lemma recommendations_throw_for_unknown_profile_witness :
  Engine.getSessionRecommendationsOf
    (Engine.mkKnowledge (λ _, None) Engine.builtinCatalog (λ _, None)
       (λ _, None)) "s1" (Some "p1")
  = inl Engine.TypeError.
Proof.
  apply (proj1 (recommendations_throw_for_unknown_profile _ _ _)).
  exists "p1". by repeat split.
Defined.



(** X17.  The join route registers the connection
    ['http_' + Date.now()] and the leave route looks for
    ['http_' + userId].  Unless the user id is the decimal of the time of the
    join, or some participant already used the connection that the leave
    route looks for, the leave route removes nobody: the store after it is
    the store before it, with the user still a participant. *)
Theorem http_leave_misses_http_join (now1 now2 : Z)
    (sid userId profileId : string) (K : Engine.Knowledge) (m : State)
    (s : Session) :
  activeSessions m !! sid = Some s →
  userId ≠ pretty now1 →
  Forall (λ kp, p_connectionId kp.2 ≠ httpConnection userId)
    (participants s) →
  postLeave now2 sid userId (postJoin now1 sid userId profileId K m).2
  = (postJoin now1 sid userId profileId K m).2
  ∧ ∃ s', activeSessions (postJoin now1 sid userId profileId K m).2 !! sid
          = Some s'
      ∧ pget userId (participants s')
        = Some (mkParticipant userId profileId (httpConnection (pretty now1))
                  now1 [] 0%R 0).
Proof.
  intros Hs Hne Hfree. rewrite postJoin_state.
  assert (Hj : activeSessions
                 (joinSession now1 sid
                    (mkUserInfo userId profileId
                       (httpConnection (pretty now1))) m).2 !! sid
               = Some (joined now1
                         (mkUserInfo userId profileId
                            (httpConnection (pretty now1))) s)).
  { unfold joinSession. rewrite Hs. simpl. apply lookup_insert_eq. }
  split.
  - unfold postLeave.
    apply (leaveSession_unknown_connection _ _ _ _ _ Hj).
    apply findByConnection_None. simpl. apply pset_Forall; [|done].
    simpl. intros Heq. apply Hne. symmetry. by apply httpConnection_inj.
  - eexists. split; [exact Hj|]. simpl. apply pget_pset_eq.
Qed.

Lemma http_leave_misses_http_join_witness :
  postLeave 9 "s1" "u1"
    (postJoin 7 "s1" "u1" "p1"
       (Engine.mkKnowledge (λ _, Some []) Engine.builtinCatalog (λ _, None)
          (λ _, None)) Scenario.justCreated).2
  = (postJoin 7 "s1" "u1" "p1"
       (Engine.mkKnowledge (λ _, Some []) Engine.builtinCatalog (λ _, None)
          (λ _, None)) Scenario.justCreated).2.
Proof.
  refine (proj1 (http_leave_misses_http_join 7 9 "s1" "u1" "p1" _
                   Scenario.justCreated
                   (fresh "s1" 0 (mkPatch None None None)) eq_refl _ _)).
  - discriminate.
  - constructor.
Defined.

End Routes.

(* ===================================================================== *)
(** * Scores written to the preference model *)
(* ===================================================================== *)

Section ScoreRange.
Import Engine Server.





(** X19.  Over the WebSocket the score written to the preference model
    is the intensity of the message, or 3 when the intensity is absent or 0;
    the sentiment label plays no part.  Over the HTTP route a body without
    intensity is scored by its label.  A "strongly like" without intensity
    is thus stored as 3 by the one and as 5 by the other. *)
Theorem websocket_scores_ignore_label (now : Z) (sid : string)
    (msg : ReactionBody) (fallback : list Combined)
    (diverse : list Recommendation) (app : App) :
  preference (engine (onUserReaction now sid msg fallback diverse app).2)
    (b_profileId msg) (b_trackId msg)
  = intensityOr3 (b_intensity msg)
  ∧ (schemaAccepts msg = true → b_intensity msg = None →
     preference (engine (postReaction now sid msg fallback diverse app).2)
       (b_profileId msg) (b_trackId msg)
     = baseScores (b_reaction msg)
     ∧ is_Some (baseScores (b_reaction msg))).
Proof.
  split.
  - unfold onUserReaction, processReaction. cbn [snd engine].
    rewrite preference_updated. simpl.
    unfold reactionToScore, jsOr, intensityOr3.
    destruct (b_intensity msg) as [k|]; simpl.
    + destruct (decide (k = 0)%Z) as [->|Hk]; simpl.
      * done.
      * by rewrite !decide_False by done.
    + done.
  - intros Hacc Hnone. unfold postReaction. rewrite Hacc.
    unfold processReaction. cbn [snd engine].
    rewrite preference_updated. simpl. rewrite Hnone.
    unfold schemaAccepts in Hacc. apply andb_true_iff in Hacc as [Hl _].
    apply bool_decide_eq_true in Hl.
    unfold sentimentLabels in Hl.
    repeat (apply elem_of_cons in Hl as [->|Hl]; [by split|]).
    by apply elem_of_nil in Hl.
Qed.

Lemma websocket_scores_ignore_label_witness :
  preference
    (engine (onUserReaction 9 "s1" (mkBody "track1" "strongly like" None "p1")
               [] [] Scenario.app).2) "p1" "track1" = Some 3%Z
  ∧ preference
      (engine (postReaction 9 "s1" (mkBody "track1" "strongly like" None "p1")
                 [] [] Scenario.app).2) "p1" "track1" = Some 5%Z.
Proof.
  destruct (websocket_scores_ignore_label 9 "s1"
              (mkBody "track1" "strongly like" None "p1") [] []
              Scenario.app) as [Hws Hhttp].
  split; [exact Hws|]. exact (proj1 (Hhttp eq_refl eq_refl)).
Defined.

End ScoreRange.

(* ===================================================================== *)
(** * Content similarity and contrasting tracks *)
(* ===================================================================== *)

Section Contrast.
Import Engine.




Lemma slice_0 {A} (n : nat) (l : list A) : slice 0 n l = take n l.
Proof. unfold slice. by rewrite Nat.sub_0_r. Qed.

Lemma catalogGet_elem tid f (catalog : list (string * Features)) :
  catalogGet tid catalog = Some f → (tid, f) ∈ catalog.
Proof.
  induction catalog as [|[k g] rest IH]; simpl; [done|].
  destruct (decide (k = tid)) as [->|Hne].
  - intros [= ->]. apply elem_of_cons. by left.
  - intros H. apply elem_of_cons. right. by apply IH.
Qed.

(** X21.  After a reaction that is negative and not positive on a
    track with features [f] in the catalog, the adaptive recommendation is
    the catalog ranked by descending contrast [1 - similarity] to [f], cut to
    its first 5.  Every entry has reason "contrasting" and a score that is
    not negative.  The reacted track is not excluded: when the catalog has at
    most 5 tracks it is among the recommendations. *)
Theorem contrasting_tracks_after_negative_reaction
    (catalog : list (string * Features)) (f : Features)
    (fallback : list Combined) (diverse : list Recommendation)
    (r : Manager.ReactionData) :
  catalogGet (Manager.trackId r) catalog = Some f →
  positiveReaction r = false →
  negativeReaction r = true →
  ∃ recs,
    getAdaptiveRecommendations catalog fallback diverse r = Tracks recs
    ∧ recs = getContrastingTracks f 5 catalog
    ∧ descending score recs
    ∧ length recs = min 5 (length catalog)
    ∧ Forall (λ rec, reason rec = "contrasting" ∧ (0 <= score rec)%Q
                     ∧ ∃ g, (trackId rec, g) ∈ catalog
                            ∧ score rec
                              = (1 - calculateContentSimilarity f g)%Q) recs
    ∧ (length catalog ≤ 5 → Manager.trackId r ∈ map trackId recs).
Proof.
  intros Hget Hpos Hneg. eexists. split.
  { unfold getAdaptiveRecommendations. by rewrite Hget, Hpos, Hneg. }
  split; [done|]. unfold getContrastingTracks. rewrite slice_0.
  set (contrasts := map (λ kf, mkRec kf.1
                                 (1 - calculateContentSimilarity f kf.2)%Q
                                 "contrasting") catalog).
  split; [|split; [|split]].
  - apply descending_firstn, sortDesc_descending.
  - rewrite length_take, sortDesc_length. unfold contrasts.
    by rewrite length_map.
  - apply Forall_take, sortDesc_Forall. unfold contrasts.
    apply Forall_fmap, Forall_forall. intros [k g] Hin. simpl.
    split; [done|]. split.
    + pose proof (similarity_le_one f g). lra.
    + by exists g.
  - intros Hlen. rewrite take_ge.
    2:{ rewrite sortDesc_length. unfold contrasts. rewrite length_map. lia. }
    apply list_elem_of_fmap.
    exists (mkRec (Manager.trackId r)
              (1 - calculateContentSimilarity f f)%Q "contrasting").
    split; [done|]. apply sortDesc_elem. unfold contrasts.
    apply list_elem_of_fmap. exists (Manager.trackId r, f).
    split; [done|]. by apply catalogGet_elem.
Qed.

(** On the catalog of the engine a "dislike" on [track1] recommends
    [track1] again, in the last place. *)
Lemma contrasting_tracks_after_negative_reaction_witness :
  ∃ recs,
    getAdaptiveRecommendations builtinCatalog [] []
      (Manager.mkReaction "track1" "dislike" None "p" 0) = Tracks recs
    ∧ "track1" ∈ map trackId recs.
Proof.
  destruct (contrasting_tracks_after_negative_reaction builtinCatalog
              (mkFeatures "classical" 1960 (3#10) (7#10) 80) [] []
              (Manager.mkReaction "track1" "dislike" None "p" 0)
              eq_refl eq_refl eq_refl)
    as (recs & Hrecs & _ & _ & _ & _ & Hself).
  exists recs. split; [exact Hrecs|]. apply Hself. simpl. lia.
Defined.

End Contrast.

(* ===================================================================== *)
(** * Nothing proposed is lost by the combiner *)
(* ===================================================================== *)

Section CombinerComplete.
Import Engine.

Lemma cget_Some tid combined c :
  cget tid combined = Some c → c ∈ combined ∧ c_trackId c = tid.
Proof.
  induction combined as [|c0 rest IH]; simpl; [done|].
  destruct (decide (c_trackId c0 = tid)) as [Heq|Hne].
  - intros [= <-]. split; [|done]. apply elem_of_cons. by left.
  - intros H. destruct (IH H) as [Hin Hid]. split; [|done].
    apply elem_of_cons. by right.
Qed.

Lemma length_accumulate rec w combined :
  length (accumulate rec w combined) ≤ S (length combined).
Proof.
  induction combined as [|c rest IH]; simpl; [lia|].
  destruct (decide (c_trackId c = trackId rec)); simpl; lia.
Qed.

Lemma length_accumulateAll props combined :
  length (accumulateAll props combined) ≤ length props + length combined.
Proof.
  revert combined. induction props as [|[rec w] props IH]; intros combined.
  - simpl. lia.
  - unfold accumulateAll in *. simpl.
    specialize (IH (accumulate rec w combined)).
    pose proof (length_accumulate rec w combined). simpl in *. lia.
Qed.

Lemma proposals_elem a b c r :
  r ∈ a ++ b ++ c ↔ ∃ w, (r, w) ∈ proposals a b c.
Proof.
  unfold proposals. split.
  - intros [H|[H|H]%elem_of_app]%elem_of_app.
    + exists (4#10)%Q. apply elem_of_app. left.
      apply list_elem_of_fmap. by exists r.
    + exists (4#10)%Q. apply elem_of_app. right. apply elem_of_app. left.
      apply list_elem_of_fmap. by exists r.
    + exists (2#10)%Q. apply elem_of_app. right. apply elem_of_app. right.
      apply list_elem_of_fmap. by exists r.
  - intros (w & [H|[H|H]%elem_of_app]%elem_of_app);
      apply list_elem_of_fmap in H as (r' & [= -> _] & Hin);
      rewrite !elem_of_app; auto.
Qed.

Lemma proposals_length a b c :
  length (proposals a b c) = length (a ++ b ++ c).
Proof. unfold proposals. by rewrite !length_app, !length_map. Qed.

(** X22.  The combiner drops no proposal and invents none: every
    track proposed by a strategy is in the result of
    [combineRecommendations], every track in the result was proposed, and the
    result is no longer than the number of proposals.  So when the three
    strategies together make at most 10 proposals, the first ten that
    [getSessionRecommendations] returns contain every proposed track. *)
Theorem combiner_keeps_every_track (a b c : list Recommendation) :
  let combined :=
    combineRecommendations [(a, (4#10)%Q); (b, (4#10)%Q); (c, (2#10)%Q)] in
  (∀ r, r ∈ a ++ b ++ c → trackId r ∈ map c_trackId combined)
  ∧ (∀ x, x ∈ combined → ∃ r, r ∈ a ++ b ++ c ∧ trackId r = c_trackId x)
  ∧ length combined ≤ length (a ++ b ++ c)
  ∧ (length (a ++ b ++ c) ≤ 10 →
     ∀ r, r ∈ a ++ b ++ c →
          trackId r ∈ map c_trackId (getSessionRecommendations a b c)).
Proof.
  intros combined.
  pose proof (tallies_accumulateAll (proposals a b c)) as [Hnd Htally].
  assert (Hall : ∀ r, r ∈ a ++ b ++ c → trackId r ∈ map c_trackId combined).
  { intros r Hr. apply proposals_elem in Hr as [w Hin].
    specialize (Htally (trackId r)).
    destruct (cget (trackId r) (accumulateAll (proposals a b c) []))
      as [x|] eqn:Eg.
    - destruct (cget_Some _ _ _ Eg) as [Hx Hid].
      apply list_elem_of_fmap. exists x. split; [done|].
      unfold combined, combineRecommendations. rewrite combine_three.
      by apply sortDesc_elem.
    - exfalso. by apply (proj1 (list.Forall_forall _ _) Htally (r, w) Hin). }
  assert (Hlen : length combined ≤ length (a ++ b ++ c)).
  { unfold combined, combineRecommendations.
    rewrite combine_three, sortDesc_length, <- proposals_length.
    pose proof (length_accumulateAll (proposals a b c) []). simpl in *. lia. }
  split; [done|]. split; [|split; [done|]].
  - intros x Hx. unfold combined, combineRecommendations in Hx.
    rewrite combine_three in Hx. apply sortDesc_elem in Hx.
    specialize (Htally (c_trackId x)).
    rewrite (cget_elem x _ Hnd Hx) in Htally.
    destruct Htally as (_ & _ & Hreasons & Hne).
    rewrite Hreasons in Hne. unfold reasonsOf in Hne.
    destruct (filter (λ pw, trackId pw.1 = c_trackId x) (proposals a b c))
      as [|[r w] rest] eqn:Ef; [done|].
    assert (Hin : (r, w) ∈ filter (λ pw : Recommendation * Q,
                                     trackId pw.1 = c_trackId x)
                             (proposals a b c)).
    { rewrite Ef. apply elem_of_cons. by left. }
    apply list_elem_of_filter in Hin as [Hid Hin]. exists r. split; [|done].
    apply proposals_elem. by exists w.
  - intros Hten r Hr. unfold getSessionRecommendations.
    rewrite slice_0, take_ge; [by apply Hall|].
    fold combined. lia.
Qed.

Lemma combiner_keeps_every_track_witness :
  "track2" ∈ map c_trackId
                 (getSessionRecommendations []
                    [mkRec "track1" 1 "content"]
                    [mkRec "track2" (1#2) "contextual"]).
Proof.
  refine (proj2 (proj2 (proj2 (combiner_keeps_every_track []
                                 [mkRec "track1" 1 "content"]
                                 [mkRec "track2" (1#2) "contextual"])))
            _ (mkRec "track2" (1#2) "contextual") _).
  - simpl. lia.
  - simpl. apply elem_of_cons. right. apply elem_of_cons. by left.
Defined.

End CombinerComplete.

(* ===================================================================== *)
(** * The three strategies *)
(* ===================================================================== *)

Section Strategies.
Import Engine.

Lemma Qltb_lt (x y : Q) : Qltb x y = true ↔ (x < y)%Q.
Proof.
  unfold Qltb. rewrite negb_true_iff. split.
  - intros H. apply Qnot_le_lt. intros Hle. apply Qle_bool_iff in Hle.
    congruence.
  - intros Hlt. destruct (Qle_bool y x) eqn:E; [|done].
    apply Qle_bool_iff in E. exfalso. by apply (Qlt_not_le _ _ Hlt).
Qed.

Lemma minQ_spec (x y : Q) :
  (minQ x y <= x)%Q ∧ (minQ x y <= y)%Q ∧ (minQ x y = x ∨ minQ x y = y).
Proof.
  unfold minQ. destruct (Qle_bool x y) eqn:E.
  - apply Qle_bool_iff in E. repeat split; [apply Qle_refl|done|by left].
  - assert (y < x)%Q by (apply Qltb_lt; unfold Qltb; by rewrite E).
    repeat split; [by apply Qlt_le_weak|apply Qle_refl|by right].
Qed.

Lemma contextBoost_bounds (f : Features) (ctx : Context) :
  (1 <= calculateContextBoost f ctx <= 15#10)%Q.
Proof.
  unfold calculateContextBoost.
  destruct (preferredGenres ctx) as [l|];
    [destruct (bool_decide (genre f ∈ l))|];
    (destruct (energyLevel ctx) as [e|];
     [destruct (negb (Qeq_bool e 0) && Qltb (Qabs (e - energy f)) (2 # 10))|]);
    vm_compute; intuition discriminate.
Qed.

(** X23.  The context boost is one of 1, 1.2, 1.3 and 1.5: it is at
    least 1 and at most 1.5, so that the cap at 2 never takes effect. *)
Theorem context_boost_range (f : Features) (ctx : Context) :
  (1 <= calculateContextBoost f ctx <= 15#10)%Q
  ∧ (calculateContextBoost f ctx == 1 ∨ calculateContextBoost f ctx == 12#10
     ∨ calculateContextBoost f ctx == 13#10
     ∨ calculateContextBoost f ctx == 15#10)%Q.
Proof.
  split; [apply contextBoost_bounds|].
  unfold calculateContextBoost.
  destruct (preferredGenres ctx) as [l|];
    [destruct (bool_decide (genre f ∈ l))|];
    (destruct (energyLevel ctx) as [e|];
     [destruct (negb (Qeq_bool e 0) && Qltb (Qabs (e - energy f)) (2 # 10))|]);
    vm_compute; intuition discriminate.
Qed.

Lemma inject_nat_nonneg (n : nat) : (0 <= inject_Z (Z.of_nat n))%Q.
Proof. change 0%Q with (inject_Z 0). rewrite <- Zle_Qle. lia. Qed.

(** X24.  The confidence is 0.3 as long as the profile has fewer
    than 5 rated tracks (or none at all), 0.5 as long as the session context
    has fewer than 3 recorded reactions, and from then on
    [0.3 + 0.02 * tracks + 0.05 * reactions] capped at 0.9: it is always
    between 0.3 and 0.9, and at least 0.55 once both thresholds are met. *)
Theorem confidence_range (preferences : option (list (string * Z)))
    (context : option Context) :
  (3#10 <= calculateConfidence preferences context <= 9#10)%Q
  ∧ ∀ prefs history,
      preferences = Some prefs → 5 ≤ length prefs →
      context ≫= reactionHistory = Some history → 3 ≤ length history →
      (55#100 <= calculateConfidence preferences context)%Q.
Proof.
  unfold calculateConfidence. split.
  - destruct preferences as [prefs|]; [|split; discriminate].
    case_bool_decide; [split; discriminate|].
    destruct (context ≫= reactionHistory) as [history|];
      [|split; discriminate].
    case_bool_decide; [split; discriminate|].
    pose proof (inject_nat_nonneg (length prefs)).
    pose proof (inject_nat_nonneg (length history)).
    destruct (minQ_spec (9#10)
                ((3#10) + inject_Z (Z.of_nat (length prefs)) * (2#100)
                 + inject_Z (Z.of_nat (length history)) * (5#100))%Q)
      as (Hle & _ & [Heq | Heq]); rewrite Heq in *;
      [split; discriminate|].
    split; [lra|exact Hle].
  - intros prefs history -> Hp -> Hh.
    rewrite !bool_decide_eq_false_2 by lia.
    assert (H5 : (inject_Z 5 <= inject_Z (Z.of_nat (length prefs)))%Q)
      by (rewrite <- Zle_Qle; lia).
    assert (H3 : (inject_Z 3 <= inject_Z (Z.of_nat (length history)))%Q)
      by (rewrite <- Zle_Qle; lia).
    change (inject_Z 5) with 5%Q in H5. change (inject_Z 3) with 3%Q in H3.
    destruct (minQ_spec (9#10)
                ((3#10) + inject_Z (Z.of_nat (length prefs)) * (2#100)
                 + inject_Z (Z.of_nat (length history)) * (5#100))%Q)
      as (_ & _ & [-> | ->]); [discriminate|lra].
Qed.

Lemma confidence_range_witness :
  (55#100 <= calculateConfidence
               (Some [("a", 5%Z); ("b", 4%Z); ("c", 3%Z); ("d", 2%Z);
                      ("e", 1%Z)])
               (Some (mkContext None None None None None None
                        (Some [Manager.mkReaction "a" "like" None "p" 1;
                               Manager.mkReaction "b" "like" None "p" 2;
                               Manager.mkReaction "c" "like" None "p" 3]))))%Q.
Proof.
  refine (proj2 (confidence_range
                   (Some [("a", 5%Z); ("b", 4%Z); ("c", 3%Z); ("d", 2%Z);
                          ("e", 1%Z)])
                   (Some (mkContext None None None None None None
                            (Some [Manager.mkReaction "a" "like" None "p" 1;
                                   Manager.mkReaction "b" "like" None "p" 2;
                                   Manager.mkReaction "c" "like" None "p" 3]))))
            _ [Manager.mkReaction "a" "like" None "p" 1;
               Manager.mkReaction "b" "like" None "p" 2;
               Manager.mkReaction "c" "like" None "p" 3]
            eq_refl _ eq_refl _); simpl; lia.
Defined.

Lemma contextualScore_range (ctx : Context) (f : Features) :
  (0 <= valence f <= 1)%Q →
  (3#10 <= contextualScore ctx f <= 13#10)%Q.
Proof.
  intros [Hv0 Hv1]. unfold contextualScore.
  destruct (timeOfDay ctx) as [t|]; simpl.
  - destruct (decide (t = "morning")) as [->|Hm].
    + rewrite (bool_decide_eq_true_2 (Some "morning" = Some "morning"))
        by done.
      rewrite (bool_decide_eq_false_2 (Some "morning" = Some "evening"))
        by done.
      simpl.
      destruct (Qltb (5 # 10) (energy f)),
        (above (sessionDuration ctx) (inject_Z (30 * 60 * 1000))),
        (above (averageReaction ctx) (35 # 10) && Qltb (6 # 10) (valence f)),
        (below (averageReaction ctx) (25 # 10) && Qltb (valence f) (4 # 10));
        split; lra.
    + rewrite (bool_decide_eq_false_2 (Some t = Some "morning"))
        by congruence.
      simpl.
      destruct (bool_decide (Some t = Some "evening") && Qltb (energy f) (5 # 10)),
        (above (sessionDuration ctx) (inject_Z (30 * 60 * 1000))),
        (above (averageReaction ctx) (35 # 10) && Qltb (6 # 10) (valence f)),
        (below (averageReaction ctx) (25 # 10) && Qltb (valence f) (4 # 10));
        split; lra.
  - destruct (above (sessionDuration ctx) (inject_Z (30 * 60 * 1000))),
      (above (averageReaction ctx) (35 # 10) && Qltb (6 # 10) (valence f)),
      (below (averageReaction ctx) (25 # 10) && Qltb (valence f) (4 # 10));
      split; lra.
Qed.

(** X25.  The contextual strategy never proposes a track that the
    session context lists as recently played, proposes at most [count]
    tracks of the catalog in descending order of score, each with reason
    "contextual", and for a track whose valence is between 0 and 1 the score
    is between 0.3 and 1.3. *)
Theorem contextual_recommendations (context : option Context) (count : nat)
    (catalog : list (string * Features)) :
  let recs := getContextualRecommendations context count catalog in
  length recs ≤ count
  ∧ descending score recs
  ∧ Forall (λ rec,
      reason rec = "contextual"
      ∧ (∀ played, context ≫= lastTracks = Some played →
                   trackId rec ∉ played)
      ∧ ∃ f, (trackId rec, f) ∈ catalog
             ∧ score rec
               = contextualScore (default emptyContext context) f
             ∧ ((0 <= valence f <= 1)%Q →
                (3#10 <= score rec <= 13#10)%Q)) recs.
Proof.
  intros recs. unfold recs, getContextualRecommendations.
  rewrite slice_0. split; [|split].
  - rewrite length_take. lia.
  - apply descending_firstn, sortDesc_descending.
  - apply Forall_take, sortDesc_Forall, Forall_fmap, Forall_forall.
    intros [k f] [Hrecent Hin]%list_elem_of_filter. simpl in *.
    split; [done|]. split.
    + intros played Hplayed. unfold recentlyPlayed in Hrecent.
      destruct context as [ctx|]; simpl in *; [|done].
      rewrite Hplayed in Hrecent. by apply bool_decide_eq_false in Hrecent.
    + exists f. split; [done|]. split; [done|].
      apply contextualScore_range.
Qed.

Lemma contextual_recommendations_witness :
  Forall (λ rec, trackId rec ∉ ["track1"; "track2"])
    (getContextualRecommendations
       (Some (mkContext (Some "evening") None None
                (Some ["track1"; "track2"]) None None None)) 5 builtinCatalog).
Proof.
  eapply Forall_impl.
  - exact (proj2 (proj2 (contextual_recommendations
                           (Some (mkContext (Some "evening") None None
                                    (Some ["track1"; "track2"]) None None
                                    None)) 5 builtinCatalog))).
  - intros rec (_ & Hplayed & _). by apply Hplayed.
Defined.

Lemma vectorSimilarity_expanded (v : PreferenceVector) (f : Features) :
  (vectorSimilarity v f
   == (1 - Qabs (pv_era v - inject_Z (era f)) * (1#50)) * (2#10)
      + (1 - Qabs (pv_energy v - energy f)) * (2#10)
      + (1 - Qabs (pv_valence v - valence f)) * (2#10)
      + (1 - Qabs (pv_tempo v - tempo f) * (1#100)) * (1#10))%Q.
Proof.
  unfold vectorSimilarity.
  change (Qabs (pv_era v - inject_Z (era f)) / 50)%Q
    with (Qabs (pv_era v - inject_Z (era f)) * (1#50))%Q.
  change (Qabs (pv_tempo v - tempo f) / 100)%Q
    with (Qabs (pv_tempo v - tempo f) * (1#100))%Q.
  ring.
Qed.





Lemma addPreference_skip catalog acc e :
  (e.2 < 3)%Z ∨ catalogGet e.1 catalog = None →
  addPreference catalog acc e = acc.
Proof.
  unfold addPreference. intros [Hlow|Hnone].
  - destruct (catalogGet e.1 catalog); [|done].
    by rewrite bool_decide_eq_false_2 by lia.
  - by rewrite Hnone.
Qed.

(** X27.  For a profile without a rating of 3 or more of a catalog track
    (in particular one without ratings, and a request without a profile) the
    preference vector is all zero.  Every track from after the year 175 whose
    energy, valence and tempo are not negative then has a negative content
    similarity. *)
Theorem cold_profile_scores_negative (catalog : list (string * Features))
    (preferences : list (string * Z)) (f : Features) :
  Forall (λ e, (e.2 < 3)%Z ∨ catalogGet e.1 catalog = None) preferences →
  calculatePreferenceVector catalog preferences = mkVector [] 0 0 0 0
  ∧ ((175 < era f)%Z → (0 <= energy f)%Q → (0 <= valence f)%Q →
     (0 <= tempo f)%Q →
     (vectorSimilarity (calculatePreferenceVector catalog preferences) f
      < 0)%Q).
Proof.
  intros Hcold.
  assert (Hvec : calculatePreferenceVector catalog preferences
                 = mkVector [] 0 0 0 0).
  { unfold calculatePreferenceVector.
    assert (Hfold : fold_left (addPreference catalog) preferences
                      (mkVector [] 0 0 0 0, 0%Z)
                    = (mkVector [] 0 0 0 0, 0%Z)).
    { induction Hcold as [|e rest He Hrest IH]; simpl; [done|].
      by rewrite addPreference_skip. }
    by rewrite Hfold. }
  split; [done|]. intros Hera He Hv Ht. rewrite Hvec.
  rewrite vectorSimilarity_expanded.
  cbn [pv_era pv_energy pv_valence pv_tempo].
  assert (Habs : ∀ x : Q, (0 <= x)%Q → (Qabs (0 - x) == x)%Q).
  { intros x Hx. rewrite Qabs_Qminus.
    assert (E : (x - 0 == x)%Q) by ring. rewrite E. by apply Qabs_pos. }
  assert (H176 : (inject_Z 176 <= inject_Z (era f))%Q)
    by (rewrite <- Zle_Qle; lia).
  change (inject_Z 176) with 176%Q in H176.
  assert (H0 : (0 <= inject_Z (era f))%Q) by lra.
  rewrite (Habs _ H0), (Habs _ He), (Habs _ Hv), (Habs _ Ht). lra.
Qed.

Lemma cold_profile_scores_negative_witness :
  (vectorSimilarity (calculatePreferenceVector builtinCatalog [])
     (mkFeatures "classical" 1960 (3#10) (7#10) 80) < 0)%Q.
Proof.
  refine (proj2 (cold_profile_scores_negative builtinCatalog []
                   (mkFeatures "classical" 1960 (3#10) (7#10) 80)
                   (List.Forall_nil _)) _ _ _ _); simpl; try lia; discriminate.
Defined.

(** X28.  The collaborative strategy proposes a track only on
    account of one of the first five similar users of the profile who rated
    it 4 or more, with that rating times the similarity of the user as score
    and "collaborative" as reason; it proposes at most [count] tracks in
    descending order of score, and nothing when the model has no entry for
    the profile. *)
Theorem collaborative_recommendations
    (similarUsers : option (list SimilarUser))
    (preferencesOf : string → option (list (string * Z))) (count : nat) :
  let recs :=
    getCollaborativeRecommendations similarUsers preferencesOf count in
  length recs ≤ count
  ∧ descending score recs
  ∧ Forall (λ rec,
      reason rec = "collaborative"
      ∧ ∃ su rating,
          su ∈ take 5 (default [] similarUsers)
          ∧ (trackId rec, rating)
            ∈ default [] (preferencesOf (su_userId su))
          ∧ (4 ≤ rating)%Z
          ∧ score rec = (inject_Z rating * su_similarity su)%Q) recs
  ∧ (similarUsers = None → recs = []).
Proof.
  intros recs. unfold recs, getCollaborativeRecommendations.
  rewrite !slice_0. split; [|split; [|split]].
  - rewrite length_take. lia.
  - apply descending_firstn, sortDesc_descending.
  - apply Forall_take, sortDesc_Forall, list.Forall_forall.
    intros rec Hin. apply list_elem_of_In, in_flat_map in Hin
      as (su & Hsu & Hrec).
    apply list_elem_of_In, list_elem_of_fmap in Hrec
      as ([t rating] & -> & [Hr He]%list_elem_of_filter).
    simpl in *. split; [done|]. exists su, rating.
    split; [by apply list_elem_of_In|]. done.
  - intros ->. simpl. by destruct count.
Qed.

Lemma collaborative_recommendations_witness :
  getCollaborativeRecommendations None (λ _, None) 5 = [].
Proof.
  exact (proj2 (proj2 (proj2 (collaborative_recommendations None
                                (λ _, None) 5))) eq_refl).
Defined.

End Strategies.

(* ===================================================================== *)
(** * The track document: similarity and analytics *)
(* ===================================================================== *)

Section TrackDocument.
Import Track.

Lemma distance_sym (t o : Track) : distance t o = distance o t.
Proof. unfold distance. cbv zeta. apply f_equal. field. Qed.

Lemma eraClose_sym (a b : option Z) : eraClose a b = eraClose b a.
Proof.
  destruct a as [x|], b as [y|]; simpl; try done.
  apply bool_decide_ext. lia.
Qed.

Lemma boost_sym (t o : Track) : boost t o = boost o t.
Proof.
  unfold boost. rewrite (eraClose_sym (era t)).
  destruct (decide (genre t = genre o)), (decide (genre o = genre t));
    try congruence;
    destruct (decide (artist t = artist o)), (decide (artist o = artist t));
    congruence.
Qed.

Lemma boost_ge_one (t o : Track) : (1 <= boost t o)%R.
Proof.
  unfold boost.
  destruct (decide (genre t = genre o)), (decide (artist t = artist o)),
    (eraClose (era t) (era o)); lra.
Qed.

(** X29.  The track-to-track similarity does not depend on
    which of the two tracks is asked, is positive and is at most 1. *)
Theorem track_similarity_symmetric (t o : Track) :
  calculateSimilarity t o = calculateSimilarity o t
  ∧ (0 < calculateSimilarity t o <= 1)%R.
Proof.
  split.
  - unfold calculateSimilarity. by rewrite distance_sym, boost_sym.
  - unfold calculateSimilarity.
    assert (Hd : (0 <= distance t o)%R) by apply sqrt_pos.
    pose proof (boost_ge_one t o) as Hb.
    assert (Hs : (0 < 1 / (1 + distance t o))%R).
    { apply Rdiv_lt_0_compat; lra. }
    unfold Rmin. destruct (Rle_dec _ _); [|lra].
    split; [nra|done].
Qed.



End TrackDocument.
